(** * xchainpy: the Thorchain client facade and the Binance key derivation

    A shallow embedding of
    - [xchainpy/xchainpy_thorchain/client.py] (class [Client]), and
    - [packages/xchainpy_binance/crypto.py] ([mnemonicToSeed],
      [mnemonicToPrivateKey]),
    followed by the properties of the client state machine.

    Python objects are mutable and exceptions leave the mutations made so
    far in place, so methods are computations in a state-and-exception
    monad whose state survives a [Raise].  The collaborators that live
    outside these files (the mnemonic checker, the Cosmos SDK node client,
    the remote node) are an interface, [Collaborators]; every call made to
    one of them is recorded in a call log.  Methods run one at a time:
    a coroutine is followed from its call to its result. *)

From Stdlib Require Import Strings.String Lists.List Bool.Bool Strings.Byte.
Import ListNotations.
Local Open Scope string_scope.
Local Open Scope list_scope.

Set Implicit Arguments.

(** ** Python values *)

(** [bytes] *)
Definition bytes := list byte.

(** The exceptions the modelled code can raise.  [Exception] carries the
    message given to [raise Exception(...)]; the others are raised by the
    interpreter itself (a missing dict key, an unbound name, a missing
    attribute). *)
Inductive exn :=
| Exception (msg : string)
| KeyError (key : string)
| NameError (name : string)
| AttributeError (attr : string).

Inductive res (A : Type) :=
| Ok (a : A)
| Raise (e : exn).
Arguments Ok {A} a.
Arguments Raise {A} e.

(** Truth value testing ([if x], [not x], [x or y]). *)
Class Truthy (A : Type) := truthy : A -> bool.

#[export] Instance Truthy_str : Truthy string :=
  fun s => negb (s =? "").

#[export] Instance Truthy_list {A} : Truthy (list A) :=
  fun l => match l with [] => false | _ :: _ => true end.

(** [None] is false; any other object answers for itself. *)
#[export] Instance Truthy_option {A} `{Truthy A} : Truthy (option A) :=
  fun o => match o with None => false | Some a => truthy a end.

(** [x or y] where [x] may be [None]. *)
Definition py_or {A} `{Truthy A} (x : option A) (y : A) : A :=
  match x with
  | Some a => if truthy a then a else y
  | None => y
  end.

(** [d[k]] on a dict with string keys. *)
Fixpoint dict_get {V} (d : list (string * V)) (k : string) : res V :=
  match d with
  | [] => Raise (KeyError k)
  | (k', v) :: d' => if k' =? k then Ok v else dict_get d' k
  end.

(** Name resolution inside a function body: a name is looked up among the
    function's locals, then among the names bound at module level. *)
Definition name_bound (scope : list string) (x : string) : bool :=
  existsb (String.eqb x) scope.

(** ** The node client

    [CosmosSDKClient] is represented by the keyword arguments it was
    constructed with. *)
Module CosmosSDKClient.
Record t := make {
  server : string;
  prefix : string;
  derive_path : string;
  chain_id : string
}.
End CosmosSDKClient.

(** One entry of the default client URL table. *)
Record NodeUrl := { node : string; rpc : string }.

(** The [client_url] attribute holds either a caller-supplied string or the
    default table. *)
Inductive ClientUrl :=
| UrlStr (url : string)
| UrlTable (table : list (string * NodeUrl)).

#[export] Instance Truthy_ClientUrl : Truthy ClientUrl :=
  fun u => match u with
           | UrlStr s => truthy s
           | UrlTable t => truthy t
           end.

(** One coin of a balance response, and one entry of the list that
    [get_balance] returns. *)
Module Coin.
Record t := make { denom : string; amount : string }.
End Coin.

Module Balance.
Record t := make { asset : string; amount : string }.
End Balance.

(** The JSON body answered by the node to a balance query. *)
Record Response := { height : string; result : list Coin.t }.

(** Arguments of [transfer]. *)
Record Transfer := {
  transfer_amount : nat;
  transfer_recipient : string;
  transfer_asset : string;
  transfer_memo : string
}.

(** ** Collaborators *)

(** Calls that leave the client. *)
Inductive Call :=
| Call_validate_phrase (phrase : string)
| Call_seed_to_privkey (c : CosmosSDKClient.t) (phrase : string)
| Call_privkey_to_address (c : CosmosSDKClient.t) (key : bytes)
| Call_get_balance (c : CosmosSDKClient.t) (address : string)
| Call_send (c : CosmosSDKClient.t) (key : bytes) (sender : string) (t : Transfer).

(** What the client needs from the outside: [xchainpy_crypto.validate_phrase]
    and four services of the node client.  [thor_send] stands for the
    sequence [make_transaction], [add_transfer], [get_pushable],
    [do_transfer] that [transfer] runs on the node client.  Any of the
    node-client services may raise. *)
Class Collaborators := {
  validate_phrase : string -> bool;
  seed_to_privkey : CosmosSDKClient.t -> string -> res bytes;
  privkey_to_address : CosmosSDKClient.t -> bytes -> res string;
  thor_get_balance : CosmosSDKClient.t -> string -> res Response;
  thor_send : CosmosSDKClient.t -> bytes -> string -> Transfer -> res string
}.

(** ** The client object *)

Module Client.

(** The attributes of a [Client] instance.  [phrase], [address], [network]
    and [private_key] have class-level defaults; [client_url],
    [explorer_url] and [thor_client] exist only once [__init__] has
    assigned them ([None] here means the attribute is missing). *)
Record t := make {
  phrase : string;
  address : string;
  network : string;
  private_key : option bytes;
  client_url : option ClientUrl;
  explorer_url : option string;
  thor_client : option CosmosSDKClient.t
}.

(** The class attribute [derive_path]; no method reads it. *)
Definition derive_path : string := "m/44'/118'/0'/0/0".

(** A new instance before [__init__] runs: the class-level defaults. *)
Definition new : t := {|
  phrase := ""; address := ""; network := "";
  private_key := None;
  client_url := None; explorer_url := None; thor_client := None
|}.

(** Attribute assignment, [self.x = v]. *)
Definition with_phrase (v : string) (c : t) : t :=
  make v (address c) (network c) (private_key c)
       (client_url c) (explorer_url c) (thor_client c).

Definition with_address (v : string) (c : t) : t :=
  make (phrase c) v (network c) (private_key c)
       (client_url c) (explorer_url c) (thor_client c).

Definition with_network (v : string) (c : t) : t :=
  make (phrase c) (address c) v (private_key c)
       (client_url c) (explorer_url c) (thor_client c).

Definition with_private_key (v : option bytes) (c : t) : t :=
  make (phrase c) (address c) (network c) v
       (client_url c) (explorer_url c) (thor_client c).

Definition with_client_url (v : ClientUrl) (c : t) : t :=
  make (phrase c) (address c) (network c) (private_key c)
       (Some v) (explorer_url c) (thor_client c).

Definition with_explorer_url (v : string) (c : t) : t :=
  make (phrase c) (address c) (network c) (private_key c)
       (client_url c) (Some v) (thor_client c).

Definition with_thor_client (v : CosmosSDKClient.t) (c : t) : t :=
  make (phrase c) (address c) (network c) (private_key c)
       (client_url c) (explorer_url c) (Some v).

End Client.

(** The state a method runs in: the instance and the log of calls made to
    collaborators so far. *)
Record World := { self : Client.t; calls : list Call }.

(** ** The monad

    A computation over a state [S] returns a value or raises, and in both
    cases hands on the state it has reached. *)

Definition ST (S A : Type) : Type := S -> res A * S.

Definition ret {S A} (a : A) : ST S A := fun w => (Ok a, w).

Definition bind {S A B} (c : ST S A) (k : A -> ST S B) : ST S B :=
  fun w =>
    match c w with
    | (Ok a, w') => k a w'
    | (Raise e, w') => (Raise e, w')
    end.

Definition raise {S A} (e : exn) : ST S A := fun w => (Raise e, w).

Definition lift {S A} (r : res A) : ST S A := fun w => (r, w).

Declare Scope py_scope.
Delimit Scope py_scope with py.
Notation "x <- c ;; k" := (bind c (fun x => k))
  (at level 61, c at next level, right associativity) : py_scope.
Notation "c ;; k" := (bind c (fun _ => k))
  (at level 61, right associativity) : py_scope.
Local Open Scope py_scope.

(** Methods of [Client] run over a [World]. *)
Definition M : Type -> Type := ST World.

(** Reading an attribute of [self]. *)
Definition attr {A} (f : Client.t -> A) : M A := fun w => (Ok (f (self w)), w).

(** Reading an attribute that may be missing. *)
Definition attr_opt {A} (name : string) (f : Client.t -> option A) : M A :=
  fun w =>
    match f (self w) with
    | Some a => (Ok a, w)
    | None => (Raise (AttributeError name), w)
    end.

Definition update (f : Client.t -> Client.t) : M unit :=
  fun w => (Ok tt, {| self := f (self w); calls := calls w |}).

Definition log (c : Call) : M unit :=
  fun w => (Ok tt, {| self := self w; calls := calls w ++ [c] |}).



(** Calls to the collaborators: the call is logged, then its answer (or
    its exception) comes back. *)
Section Calling.
Context {E : Collaborators}.

Definition call_validate_phrase (phrase : string) : M bool :=
  log (Call_validate_phrase phrase) ;;
  ret (validate_phrase phrase).

Definition call_seed_to_privkey (c : CosmosSDKClient.t) (phrase : string)
  : M bytes :=
  log (Call_seed_to_privkey c phrase) ;;
  lift (seed_to_privkey c phrase).

Definition call_privkey_to_address (c : CosmosSDKClient.t) (key : bytes)
  : M string :=
  log (Call_privkey_to_address c key) ;;
  lift (privkey_to_address c key).

Definition call_get_balance (c : CosmosSDKClient.t) (address : string)
  : M Response :=
  log (Call_get_balance c address) ;;
  lift (thor_get_balance c address).

Definition call_send (c : CosmosSDKClient.t) (key : bytes) (sender : string)
  (t : Transfer) : M string :=
  log (Call_send c key sender t) ;;
  lift (thor_send c key sender t).

End Calling.

(** ** The methods of [Client] *)

(** The names bound at module level in [client.py]: its imports and its
    two classes.  (Class attributes are not in scope inside a method, and
    [network] is no builtin.) *)
Definition module_names : list string :=
  ["asyncio"; "Optional"; "datetime"; "time"; "interface"; "tx_types";
   "xchainpy_crypto"; "Asset"; "utils"; "CosmosSDKClient";
   "electrumsv_secp256k1"; "IThorchainClient"; "Client"].

Definition purge_client : M unit :=
  update (Client.with_phrase "") ;;
  update (Client.with_address "") ;;
  update (Client.with_private_key None).

Definition get_network : M string := attr Client.network.

Definition get_default_client_url : list (string * NodeUrl) :=
  [ ("testnet", {| node := "https://testnet.thornode.thorchain.info";
                   rpc := "https://testnet.rpc.thorchain.info" |});
    ("mainnet", {| node := "http://138.68.125.107:1317";
                   rpc := "http://138.68.125.107:26657" |}) ].

Definition get_default_explorer_url : M string :=
  network <- attr Client.network ;;
  ret (if network =? "testnet" then "https://testnet.thorchain.net"
       else "https://thorchain.net").

(** The parameter is spelled [netowrk]; the first branch reads [network],
    which is neither a local of the function nor a module-level name. *)
Definition get_prefix (netowrk : option string) : M string :=
  if truthy netowrk then
    if name_bound (["self"; "netowrk"] ++ module_names) "network" then
      (* a module-level object is no str and never equals 'testnet' *)
      ret "thor"
    else raise (NameError "network")
  else
    network <- attr Client.network ;;
    ret (if network =? "testnet" then "tthor" else "thor").

Definition get_chain_id : M string := ret "thorchain".

(** The keyword arguments are evaluated left to right: the table lookup
    (which may raise [KeyError]) comes before [get_prefix]. *)
Definition get_new_thor_client : M CosmosSDKClient.t :=
  network <- get_network ;;
  urls <- lift (dict_get get_default_client_url network) ;;
  prefix <- get_prefix None ;;
  chain_id <- get_chain_id ;;
  ret (CosmosSDKClient.make (node urls) prefix "m/44'/931'/0'/0/0" chain_id).

Definition set_network (network : string) : M unit :=
  if negb (truthy network) then
    raise (Exception "Network must be provided")
  else
    update (Client.with_network network) ;;
    c <- get_new_thor_client ;;
    update (Client.with_thor_client c) ;;
    update (Client.with_address "").

Definition set_client_url (client_url : string) : M unit :=
  update (Client.with_client_url (UrlStr client_url)) ;;
  c <- get_new_thor_client ;;
  update (Client.with_thor_client c).

Section Methods.
Context {E : Collaborators}.

(** The body of [if not self.private_key:] in [get_private_key], with the
    key it stores handed on. *)
Definition derive_private_key : M bytes :=
  phrase <- attr Client.phrase ;;
  if negb (truthy phrase) then raise (Exception "Phrase not set")
  else
    c <- attr_opt "thor_client" Client.thor_client ;;
    key <- call_seed_to_privkey c phrase ;;
    update (Client.with_private_key (Some key)) ;;
    ret key.

(** [return self.private_key] is the cached key when that one is truthy,
    and the key just stored otherwise. *)
Definition get_private_key : M bytes :=
  cached <- attr Client.private_key ;;
  match cached with
  | Some key => if truthy key then ret key else derive_private_key
  | None => derive_private_key
  end.

(** In [self.thor_client.privkey_to_address(self.get_private_key())] the
    callee is looked up before its argument is evaluated. *)
Definition get_address : M string :=
  cached <- attr Client.address ;;
  if negb (truthy cached) then
    c <- attr_opt "thor_client" Client.thor_client ;;
    key <- get_private_key ;;
    address <- call_privkey_to_address c key ;;
    update (Client.with_address address) ;;
    if negb (truthy address) then
      raise (Exception "Address has to be set. Or set a phrase by calling `setPhrase` before to use an address of an imported key.")
    else ret address
  else ret cached.

Definition set_phrase (phrase : string) : M string :=
  current <- attr Client.phrase ;;
  (if negb (truthy current) || negb (current =? phrase) then
     valid <- call_validate_phrase phrase ;;
     if negb valid then raise (Exception "invalid phrase")
     else
       update (Client.with_phrase phrase) ;;
       update (Client.with_private_key None) ;;
       update (Client.with_address "")
   else ret tt) ;;
  get_address.

Definition __init__ (phrase : string) (network : string)
  (client_url explorer_url : option string) : M unit :=
  update (Client.with_network network) ;;
  update (Client.with_client_url
            (py_or (option_map UrlStr client_url)
                   (UrlTable get_default_client_url))) ;;
  explorer <- match explorer_url with
              | Some url =>
                  if truthy url then ret url else get_default_explorer_url
              | None => get_default_explorer_url
              end ;;
  update (Client.with_explorer_url explorer) ;;
  c <- get_new_thor_client ;;
  update (Client.with_thor_client c) ;;
  if truthy phrase then _ <- set_phrase phrase ;; ret tt
  else ret tt.

(** The loop of [get_balance]: one pass over the response, appending the
    entries that are kept. *)
Definition keep_balance (asset : option string) (balance : Coin.t) : bool :=
  negb (truthy asset)
  || match asset with
     | Some a => Coin.denom balance =? a
     | None => false
     end.

Definition collect_balances (asset : option string) (response : list Coin.t)
  : list Balance.t :=
  fold_left
    (fun balances balance =>
       if keep_balance asset balance then
         balances ++
           [Balance.make (Coin.denom balance) (Coin.amount balance)]
       else balances)
    response [].

Definition get_balance (address asset : option string)
  : M (list Balance.t) :=
  address <- match address with
             | Some a => if truthy a then ret a else get_address
             | None => get_address
             end ;;
  c <- attr_opt "thor_client" Client.thor_client ;;
  response <- call_get_balance c address ;;
  ret (collect_balances asset (result response)).

Definition transfer (t : Transfer) : M string :=
  c <- attr_opt "thor_client" Client.thor_client ;;
  key <- get_private_key ;;
  sender <- get_address ;;
  call_send c key sender t.

End Methods.

(** ** Histories of a client

    The public operations that can write an attribute, applied one after
    the other to an instance built by [__init__]; [get_prefix] and
    [get_new_thor_client] are included although they only read.  The
    remaining methods ([get_network], the two default URL getters,
    [get_chain_id], [get_transaction_data], [get_fees]) assign no
    attribute.  An operation that raises still leaves its world behind.
    Coroutines ([get_balance], [transfer]) are run to completion, one
    operation at a time. *)
Inductive Op :=
| Op_purge_client
| Op_set_network (network : string)
| Op_set_phrase (phrase : string)
| Op_set_client_url (client_url : string)
| Op_get_prefix (netowrk : option string)
| Op_get_new_thor_client
| Op_get_private_key
| Op_get_address
| Op_get_balance (address asset : option string)
| Op_transfer (t : Transfer).

Definition is_set_phrase (op : Op) : bool :=
  match op with
  | Op_set_phrase _ => true
  | _ => false
  end.

Section Histories.
Context {E : Collaborators}.

Definition exec (op : Op) (w : World) : World :=
  match op with
  | Op_purge_client => snd (purge_client w)
  | Op_set_network network => snd (set_network network w)
  | Op_set_phrase phrase => snd (set_phrase phrase w)
  | Op_set_client_url client_url => snd (set_client_url client_url w)
  | Op_get_prefix netowrk => snd (get_prefix netowrk w)
  | Op_get_new_thor_client => snd (get_new_thor_client w)
  | Op_get_private_key => snd (get_private_key w)
  | Op_get_address => snd (get_address w)
  | Op_get_balance address asset => snd (get_balance address asset w)
  | Op_transfer t => snd (transfer t w)
  end.

Definition exec_all (ops : list Op) (w : World) : World :=
  fold_left (fun w op => exec op w) ops w.

(** [Client(phrase, network, client_url, explorer_url)]: [__init__] runs on
    a new instance; when it raises there is no client. *)
Definition construct (phrase network : string)
  (client_url explorer_url : option string) : res World :=
  match __init__ phrase network client_url explorer_url
          {| self := Client.new; calls := [] |} with
  | (Ok _, w) => Ok w
  | (Raise e, _) => Raise e
  end.

Inductive reachable : World -> Prop :=
| reachable_construct phrase network client_url explorer_url w :
    construct phrase network client_url explorer_url = Ok w ->
    reachable w
| reachable_exec op w :
    reachable w -> reachable (exec op w).

End Histories.

(** ** [xchainpy_binance/crypto.py]

    The two functions only chain calls into the [mnemonic] and [pywallet]
    libraries.  A library call is a computation over a state [W]: whatever
    the interpreter and the libraries hold besides the arguments of the
    call (caches, an entropy pool, the clock), so that a call is free to
    answer differently each time it is made. *)
Module BinanceCrypto.

Class Libraries (W : Type) := {
  MnemonicObj : Type;
  Wallet : Type;
  (** [Mnemonic(language)] *)
  Mnemonic : string -> ST W MnemonicObj;
  (** [mnemo.to_seed(mnemonic, passphrase)] *)
  to_seed : MnemonicObj -> string -> string -> ST W bytes;
  (** [Bip32Wallet.from_master_secret(seed=..., network=...)] *)
  from_master_secret : bytes -> string -> ST W Wallet;
  (** [wallet.get_child_for_path(path)] *)
  get_child_for_path : Wallet -> string -> ST W Wallet;
  (** [wallet.get_private_key_hex()] *)
  get_private_key_hex : Wallet -> ST W bytes;
  (** [bytes.decode()] *)
  decode : bytes -> ST W string
}.

Definition HD_PATH : string := "44'/714'/0'/0/0".

Section Derivation.
Context {W : Type} {L : Libraries W}.

(** [passPhrase] defaults to [''] at the call site. *)
Definition mnemonicToSeed (mnemonic passPhrase : string) : ST W bytes :=
  mnemo <- Mnemonic "english" ;;
  seed <- to_seed mnemo mnemonic passPhrase ;;
  ret seed.

Definition mnemonicToPrivateKey (mnemonic passPhrase : string)
  : ST W string :=
  seed <- mnemonicToSeed mnemonic passPhrase ;;
  wallet <- from_master_secret seed "BTC" ;;
  child <- get_child_for_path wallet HD_PATH ;;
  privateKey <- (hex <- get_private_key_hex child ;; decode hex) ;;
  ret privateKey.

(** A computation whose outcome (value or exception) is the same in every
    state it is started from. *)
Definition state_independent {A} (c : ST W A) : Prop :=
  forall w1 w2, fst (c w1) = fst (c w2).

(** The libraries are deterministic: each of their calls answers by its
    arguments alone. *)
Record deterministic_libraries : Prop := {
  det_Mnemonic : forall language, state_independent (Mnemonic language);
  det_to_seed : forall m mnemonic passphrase,
      state_independent (to_seed m mnemonic passphrase);
  det_from_master_secret : forall seed network,
      state_independent (from_master_secret seed network);
  det_get_child_for_path : forall wallet path,
      state_independent (get_child_for_path wallet path);
  det_get_private_key_hex : forall wallet,
      state_independent (get_private_key_hex wallet);
  det_decode : forall b, state_independent (decode b)
}.

End Derivation.

(** A stand-in for the libraries, to run the model on: the state counts
    the calls made, the seed is the phrase and passphrase as bytes, a
    wallet is its seed and the path walked from it. *)
Definition count {A} (r : res A) : ST nat A := fun n => (r, S n).

Definition sample_libraries : Libraries nat := {|
  MnemonicObj := string;
  Wallet := bytes * string;
  Mnemonic := fun language => count (Ok language);
  to_seed := fun _ mnemonic passphrase =>
    count (Ok (list_byte_of_string (mnemonic ++ passphrase)%string));
  from_master_secret := fun seed _ => count (Ok (seed, "m"));
  get_child_for_path := fun wallet path =>
    count (Ok (fst wallet, (snd wallet ++ "/" ++ path)%string));
  get_private_key_hex := fun wallet =>
    count (Ok (fst wallet ++ list_byte_of_string (snd wallet)));
  decode := fun b => count (Ok (string_of_list_byte b))
|}.

End BinanceCrypto.

(** ** A stand-in for the collaborators

    Used to run the client on concrete inputs: one phrase passes the
    checksum, the key is the first seven bytes of the phrase, the address
    is the prefix of the node client followed by a fixed tail, and the
    node holds three coins for every address. *)
Definition sample_phrase : string :=
  "abandon abandon abandon abandon abandon abandon abandon abandon abandon abandon abandon about".

Definition sample_holdings : list Coin.t :=
  [ Coin.make "rune" "100"; Coin.make "bnb" "5"; Coin.make "rune" "7" ].

Definition sample_collaborators : Collaborators := {|
  validate_phrase := fun phrase => phrase =? sample_phrase;
  seed_to_privkey := fun _ phrase =>
    Ok (list_byte_of_string (substring 0 7 phrase));
  privkey_to_address := fun c _ =>
    Ok (CosmosSDKClient.prefix c ++ "1qsample")%string;
  thor_get_balance := fun _ _ =>
    Ok {| height := "0"; result := sample_holdings |};
  thor_send := fun _ _ _ _ => Ok "TXHASH"
|}.

(** A client built on testnet without a phrase, and one built with the
    sample phrase. *)
Definition sample_empty_world : World :=
  {| self := Client.make "" "" "testnet" None
               (Some (UrlTable get_default_client_url))
               (Some "https://testnet.thorchain.net")
               (Some (CosmosSDKClient.make
                        "https://testnet.thornode.thorchain.info" "tthor"
                        "m/44'/931'/0'/0/0" "thorchain"));
     calls := [] |}.

Definition sample_world : World :=
  snd (set_phrase (E := sample_collaborators) sample_phrase sample_empty_world).

(** ** Predicates used in the statements *)

(** The entries of a response kept for an asset, as the specification
    words it: those whose denomination is the asset, each as an
    [{asset, amount}] pair, in response order. *)
Definition balances_of (asset : string) (response : list Coin.t)
  : list Balance.t :=
  map (fun coin => Balance.make (Coin.denom coin) (Coin.amount coin))
      (filter (fun coin => Coin.denom coin =? asset) response).

(** Every entry of a response, as a pair. *)
Definition all_balances (response : list Coin.t) : list Balance.t :=
  map (fun coin => Balance.make (Coin.denom coin) (Coin.amount coin)) response.

(** A key derivation recorded in the call log was asked of a node client
    configured with [path]. *)
Definition derives_at (path : string) (c : Call) : Prop :=
  match c with
  | Call_seed_to_privkey client _ => CosmosSDKClient.derive_path client = path
  | _ => True
  end.

(** The instance holds a node client, and that one is configured with
    [path]. *)
Definition node_client_at (path : string) (c : Client.t) : Prop :=
  exists client,
    Client.thor_client c = Some client
    /\ CosmosSDKClient.derive_path client = path.

(** Without a phrase nothing is cached. *)
Definition caches_follow_phrase (c : Client.t) : Prop :=
  Client.phrase c = "" ->
  Client.address c = "" /\ Client.private_key c = None.

(** The state [purge_client] leaves: no phrase, no address, no key. *)
Definition purged (c : Client.t) : Prop :=
  Client.phrase c = "" /\ Client.address c = ""
  /\ Client.private_key c = None.

(** The path every node client is built with. *)
Definition thor_path : string := "m/44'/931'/0'/0/0".

(** What holds of a client throughout its life: it has a node client
    configured with [thor_path], no cache is filled while the phrase is
    empty, and every key derivation was asked of a node client configured
    with [thor_path]. *)
Definition coherent (w : World) : Prop :=
  node_client_at thor_path (self w)
  /\ caches_follow_phrase (self w)
  /\ Forall (derives_at thor_path) (calls w).

(** The node client that [get_new_thor_client] builds for a network. *)
Definition default_thor_client (network : string) : res CosmosSDKClient.t :=
  match dict_get get_default_client_url network with
  | Ok urls =>
      Ok (CosmosSDKClient.make (node urls)
            (if network =? "testnet" then "tthor" else "thor")
            "m/44'/931'/0'/0/0" "thorchain")
  | Raise e => Raise e
  end.

(** Calls to the mnemonic checker. *)
Definition is_validation (c : Call) : bool :=
  match c with
  | Call_validate_phrase _ => true
  | _ => false
  end.

(** The sample client after a switch to mainnet: the phrase stays, the
    address cache is empty. *)
Definition sample_mainnet_world : World :=
  snd (set_network "mainnet" sample_world).

(** ** [get_transaction_data]

    [raise Exception(err)] builds a new exception whose argument is the
    exception caught. *)
Inductive wrapped :=
| Exception_of (err : exn).

Section TransactionData.
Context {Tx : Type} {Truthy_Tx : Truthy Tx}.

(** [thor_client.txs_hash_get(tx_id)], a further service of the node
    client; the call log has no entry for it. *)
Variable txs_hash_get : CosmosSDKClient.t -> string -> res Tx.

(** The body of the [try]. *)
Definition find_transaction (tx_id : string) : M Tx :=
  c <- attr_opt "thor_client" Client.thor_client ;;
  tx_result <- lift (txs_hash_get c tx_id) ;;
  if negb (truthy tx_result) then raise (Exception "transaction not found")
  else ret tx_result.

(** [except Exception as err: raise Exception(err)] catches every
    exception of the body, the one raised for a missing transaction
    included. *)
Definition get_transaction_data (tx_id : string) (w : World)
  : (wrapped + Tx) * World :=
  match find_transaction tx_id w with
  | (Ok tx_result, w') => (inr tx_result, w')
  | (Raise err, w') => (inl (Exception_of err), w')
  end.

End TransactionData.

(** ** Further predicates *)

(** A cached private key is what a node client configured with [path]
    derives from the stored phrase. *)
Definition key_derived_at {E : Collaborators} (path : string) (c : Client.t)
  : Prop :=
  forall key,
    Client.private_key c = Some key ->
    exists client,
      CosmosSDKClient.derive_path client = path
      /\ seed_to_privkey client (Client.phrase c) = Ok key.

(** A key derivation recorded in the call log was given a phrase that
    passes the checksum. *)
Definition derives_from_valid {E : Collaborators} (c : Call) : Prop :=
  match c with
  | Call_seed_to_privkey _ phrase => validate_phrase phrase = true
  | _ => True
  end.

(** What else holds of a client throughout its life: a stored phrase has
    passed the checksum, and so has every phrase a key was derived from;
    when the network is one of the URL table, the node client is the one
    built for it; a cached address is an answer of the node client held. *)
Definition sound {E : Collaborators} (w : World) : Prop :=
  (Client.phrase (self w) = ""
   \/ validate_phrase (Client.phrase (self w)) = true)
  /\ Forall derives_from_valid (calls w)
  /\ (forall client,
        default_thor_client (Client.network (self w)) = Ok client ->
        Client.thor_client (self w) = Some client)
  /\ (Client.address (self w) <> "" ->
      exists client key,
        Client.thor_client (self w) = Some client
        /\ privkey_to_address client key = Ok (Client.address (self w))).

(** The client [__init__] has built when it reaches its last statement,
    [if phrase: self.set_phrase(phrase)], with [c] the node client built
    for the network. *)
Definition blank_world (network : string)
  (client_url explorer_url : option string) (c : CosmosSDKClient.t) : World :=
  {| self :=
       Client.make "" "" network None
         (Some (py_or (option_map UrlStr client_url)
                      (UrlTable get_default_client_url)))
         (Some (py_or explorer_url
                      (if network =? "testnet"
                       then "https://testnet.thorchain.net"
                       else "https://thorchain.net")))
         (Some c);
     calls := [] |}.

(** Two more stand-ins: a node client that refuses to derive a key, and
    one that derives the empty address. *)
Definition refusing_collaborators : Collaborators := {|
  validate_phrase := fun _ => true;
  seed_to_privkey := fun _ _ => Raise (Exception "no key");
  privkey_to_address := fun _ _ => Ok "";
  thor_get_balance := fun _ _ => Raise (Exception "no node");
  thor_send := fun _ _ _ _ => Raise (Exception "no node")
|}.

Definition silent_collaborators : Collaborators := {|
  validate_phrase := fun _ => true;
  seed_to_privkey := fun _ phrase => Ok (list_byte_of_string phrase);
  privkey_to_address := fun _ _ => Ok "";
  thor_get_balance := fun _ _ => Raise (Exception "no node");
  thor_send := fun _ _ _ _ => Raise (Exception "no node")
|}.

(** * Properties *)

(** ** Running the monad *)

Ltac monad :=
  unfold call_validate_phrase, call_seed_to_privkey, call_privkey_to_address,
    call_get_balance, call_send,
    bind, ret, raise, lift, attr, attr_opt, update, log;
  cbn [self calls fst snd].

Ltac run :=
  unfold set_phrase, get_address, get_private_key, derive_private_key,
    set_network, set_client_url, purge_client, get_new_thor_client,
    get_network, get_prefix, get_chain_id, get_default_explorer_url;
  monad.

(** Methods are unfolded by name only. *)
Arguments derive_private_key : simpl never.
Arguments get_private_key : simpl never.
Arguments get_address : simpl never.
Arguments set_phrase : simpl never.
Arguments get_new_thor_client : simpl never.
Arguments get_prefix : simpl never.
Arguments set_network : simpl never.
Arguments set_client_url : simpl never.
Arguments purge_client : simpl never.
Arguments get_balance : simpl never.
Arguments transfer : simpl never.

(** Case analysis on the next scrutinee of the goal. *)
Ltac branch :=
  match goal with
  | |- context [match ?x with _ => _ end] =>
      let Heq := fresh "Hcase" in destruct x eqn:Heq
  end.

Lemma truthy_str_false (s : string) : truthy s = false <-> s = "".
Proof.
  unfold truthy, Truthy_str. rewrite negb_false_iff. apply String.eqb_eq.
Qed.

Lemma truthy_str_true (s : string) : truthy s = true <-> s <> "".
Proof.
  unfold truthy, Truthy_str. rewrite negb_true_iff. apply String.eqb_neq.
Qed.

(** ** The node client *)

Lemma get_new_thor_client_run (w : World) :
  get_new_thor_client w = (default_thor_client (Client.network (self w)), w).
Proof.
  run. unfold default_thor_client.
  destruct (dict_get get_default_client_url (Client.network (self w)));
    reflexivity.
Qed.

Lemma default_thor_client_path network c :
  default_thor_client network = Ok c ->
  CosmosSDKClient.derive_path c = thor_path.
Proof.
  unfold default_thor_client.
  destruct (dict_get get_default_client_url network); intros H;
    inversion H; reflexivity.
Qed.

Lemma coherent_log c l x :
  coherent {| self := c; calls := l |} -> derives_at thor_path x ->
  coherent {| self := c; calls := l ++ [x] |}.
Proof.
  intros (Hn & Hc & Hl) Hd. repeat split; cbn; try assumption.
  - apply Hc; assumption.
  - apply Hc; assumption.
  - apply Forall_app. split; [assumption | constructor; [assumption | constructor]].
Qed.

Lemma coherent_self c c' l :
  coherent {| self := c; calls := l |} ->
  Client.thor_client c' = Client.thor_client c ->
  caches_follow_phrase c' ->
  coherent {| self := c'; calls := l |}.
Proof.
  intros (Hn & _ & Hl) Ht Hc. repeat split; cbn; try assumption.
  - destruct Hn as (client & Hsome & Hpath). exists client.
    rewrite Ht. split; assumption.
  - apply Hc; assumption.
  - apply Hc; assumption.
Qed.

(** A property of the world that holds after [c], and after [k] whenever
    [c] returned, holds after [c] followed by [k]. *)
Lemma bind_preserves {A B} (I : World -> Prop) (c : M A) (k : A -> M B) w :
  (forall r w1, c w = (r, w1) ->
                I w1 /\ forall a, r = Ok a -> I (snd (k a w1))) ->
  I (snd (bind c k w)).
Proof.
  intros H. unfold bind.
  destruct (c w) as [[a|e] w1] eqn:Hc; destruct (H _ _ eq_refl) as (H1 & Hk).
  - apply Hk. reflexivity.
  - exact H1.
Qed.

Lemma attr_opt_world {A} name (f : Client.t -> option A) w r w1 :
  attr_opt name f w = (r, w1) -> w1 = w.
Proof.
  unfold attr_opt. destruct (f (self w)); intros [= _ <-]; reflexivity.
Qed.

Section Invariant.
Context {E : Collaborators}.

(** ** The invariant *)

Lemma derive_private_key_coherent (w : World) r w' :
  coherent w ->
  derive_private_key w = (r, w') ->
  coherent w'
  /\ Client.thor_client (self w') = Client.thor_client (self w)
  /\ Client.address (self w') = Client.address (self w)
  /\ (forall k, r = Ok k -> Client.private_key (self w') = Some k).
Proof.
  destruct w as [c l]. intros Hw. unfold derive_private_key. monad.
  destruct (truthy (Client.phrase c)) eqn:Hp; cbn.
  - apply truthy_str_true in Hp.
    destruct (Hw) as ((client & Hsome & Hpath) & _). cbn in Hsome.
    rewrite Hsome.
    destruct (seed_to_privkey client (Client.phrase c)) as [k|e];
      intros H; inversion H; subst; clear H; cbn.
    + split; [|repeat split; congruence].
      apply coherent_self with (c := c); [|cbn; congruence|].
      * apply coherent_log; assumption.
      * intros Hno. cbn in Hno. contradiction.
    + split; [|repeat split; congruence].
      apply coherent_log; assumption.
  - intros H; inversion H; subst. split; [exact Hw|repeat split; congruence].
Qed.

Lemma get_private_key_coherent (w : World) r w' :
  coherent w ->
  get_private_key w = (r, w') ->
  coherent w'
  /\ Client.thor_client (self w') = Client.thor_client (self w)
  /\ Client.address (self w') = Client.address (self w)
  /\ (forall k, r = Ok k -> Client.private_key (self w') = Some k).
Proof.
  intros Hw. unfold get_private_key. monad.
  destruct (Client.private_key (self w)) as [key|] eqn:Hkey.
  - destruct (truthy key).
    + intros H; inversion H; subst.
      split; [exact Hw|repeat split; congruence].
    + apply derive_private_key_coherent; assumption.
  - apply derive_private_key_coherent; assumption.
Qed.

Lemma get_address_coherent (w : World) r w' :
  coherent w ->
  get_address w = (r, w') ->
  coherent w'
  /\ Client.thor_client (self w') = Client.thor_client (self w).
Proof.
  intros Hw. unfold get_address. monad.
  destruct (truthy (Client.address (self w))) eqn:Ha; cbn.
  - intros H; inversion H; subst. split; [exact Hw|reflexivity].
  - destruct (Hw) as ((client & Hsome & Hpath) & _). rewrite Hsome.
    destruct (get_private_key w) as [[key|e] w1] eqn:Hk;
      destruct (get_private_key_coherent Hw Hk) as (Hw1 & Ht1 & Ha1 & Hkey).
    + destruct w1 as [c1 l1]. cbn in *.
      assert (Hlogged : coherent
                {| self := c1;
                   calls := l1 ++ [Call_privkey_to_address client key] |})
        by (apply coherent_log; [assumption | exact I]).
      destruct (privkey_to_address client key) as [a|e]; cbn.
      * assert (Hset : coherent
                  {| self := Client.with_address a c1;
                     calls := l1 ++ [Call_privkey_to_address client key] |}).
        { apply coherent_self with (c := c1); [assumption|reflexivity|].
          intros Hno. cbn in Hno.
          destruct Hw1 as (_ & Hc1 & _). destruct (Hc1 Hno) as (_ & Hnone).
          cbn in Hnone. rewrite (Hkey key eq_refl) in Hnone. discriminate. }
        destruct (truthy a); cbn; intros [= <- <-];
          (split; [assumption | cbn; congruence]).
      * intros H; inversion H; subst. split; [assumption | cbn; congruence].
    + intros H; inversion H; subst. split; [assumption | congruence].
Qed.


Lemma set_phrase_coherent (p : string) (w : World) :
  coherent w -> coherent (snd (set_phrase p w)).
Proof.
  destruct w as [c l]. intros Hw. unfold set_phrase. monad.
  destruct (negb (truthy (Client.phrase c)) || negb (Client.phrase c =? p)).
  - cbn. destruct (validate_phrase p); cbn.
    + match goal with
      | |- context [get_address ?w0] =>
          assert (H0 : coherent w0);
          [| destruct (get_address w0) as [r w'] eqn:Ha;
             apply (get_address_coherent H0 Ha)]
      end.
      apply coherent_self with (c := c); [|reflexivity|].
      * apply coherent_log; [assumption | exact I].
      * intros _. split; reflexivity.
    + apply coherent_log; [assumption | exact I].
  - cbn. destruct (get_address {| self := c; calls := l |}) as [r w'] eqn:Ha.
    apply (get_address_coherent Hw Ha).
Qed.

Lemma set_network_coherent (n : string) (w : World) :
  coherent w -> coherent (snd (set_network n w)).
Proof.
  destruct w as [c l]. intros Hw. unfold set_network. monad.
  destruct (negb (truthy n)); [exact Hw|].
  rewrite get_new_thor_client_run. cbn.
  destruct Hw as ((client & Hsome & Hpath) & Hc & Hl).
  destruct (default_thor_client n) as [c'|e] eqn:Hnew; cbn.
  - repeat split; cbn; try assumption.
    + exists c'. split; [reflexivity|].
      apply (default_thor_client_path _ Hnew).
    + apply Hc; assumption.
  - repeat split; cbn; try assumption; try (apply Hc; assumption).
    exists client. split; assumption.
Qed.

Lemma set_client_url_coherent (u : string) (w : World) :
  coherent w -> coherent (snd (set_client_url u w)).
Proof.
  destruct w as [c l]. intros Hw. unfold set_client_url. monad.
  rewrite get_new_thor_client_run. cbn.
  destruct Hw as ((client & Hsome & Hpath) & Hc & Hl).
  destruct (default_thor_client (Client.network c)) as [c'|e] eqn:Hnew; cbn.
  - repeat split; cbn; try assumption; try (apply Hc; assumption).
    exists c'. split; [reflexivity|].
    apply (default_thor_client_path _ Hnew).
  - repeat split; cbn; try assumption; try (apply Hc; assumption).
    exists client. split; assumption.
Qed.

Lemma purge_client_coherent (w : World) :
  coherent w -> coherent (snd (purge_client w)).
Proof.
  destruct w as [c l]. intros ((client & Hsome & Hpath) & Hc & Hl).
  unfold purge_client. monad. cbn.
  repeat split; cbn; try assumption.
  exists client. split; assumption.
Qed.

Lemma get_balance_coherent (address asset : option string) (w : World) :
  coherent w -> coherent (snd (get_balance address asset w)).
Proof.
  intros Hw. unfold get_balance.
  apply bind_preserves. intros r1 w1 H1.
  assert (Hw1 : coherent w1).
  { destruct address as [a|]; [destruct (truthy a)|].
    - injection H1 as _ <-. exact Hw.
    - apply (get_address_coherent Hw H1).
    - apply (get_address_coherent Hw H1). }
  split; [exact Hw1|]. intros a _.
  apply bind_preserves. intros r2 w2 H2.
  apply attr_opt_world in H2. subst w2.
  split; [exact Hw1|]. intros c _.
  apply bind_preserves. intros r3 w3 H3.
  assert (Hw3 : coherent w3).
  { replace w3 with (snd (call_get_balance c a w1)) by (rewrite H3; reflexivity).
    destruct w1. apply coherent_log; [assumption | exact I]. }
  split; [exact Hw3|]. intros response _. exact Hw3.
Qed.

Lemma transfer_coherent (t : Transfer) (w : World) :
  coherent w -> coherent (snd (transfer t w)).
Proof.
  intros Hw. unfold transfer.
  apply bind_preserves. intros r1 w1 H1.
  apply attr_opt_world in H1. subst w1.
  split; [exact Hw|]. intros c _.
  apply bind_preserves. intros r2 w2 H2.
  destruct (get_private_key_coherent Hw H2) as (Hw2 & _).
  split; [exact Hw2|]. intros key _.
  apply bind_preserves. intros r3 w3 H3.
  destruct (get_address_coherent Hw2 H3) as (Hw3 & _).
  split; [exact Hw3|]. intros sender _.
  destruct w3. apply coherent_log; [assumption | exact I].
Qed.

Lemma construct_coherent phrase network client_url explorer_url (w : World) :
  construct phrase network client_url explorer_url = Ok w -> coherent w.
Proof.
  unfold construct, __init__, get_default_explorer_url. monad.
  assert (Hrest : forall w0,
             Client.phrase (self w0) = "" ->
             Client.address (self w0) = "" ->
             Client.private_key (self w0) = None ->
             calls w0 = [] ->
             match
               match get_new_thor_client w0 with
               | (Ok c, w1) =>
                   (if truthy phrase
                    then fun w2 =>
                           match set_phrase phrase w2 with
                           | (Ok _, w3) => (Ok tt, w3)
                           | (Raise e, w3) => (Raise e, w3)
                           end
                    else fun w2 => (Ok tt, w2))
                     {| self := Client.with_thor_client c (self w1);
                        calls := calls w1 |}
               | (Raise e, w1) => (Raise e, w1)
               end
             with
             | (Ok _, w1) => Ok w1
             | (Raise e, _) => Raise e
             end = Ok w -> coherent w).
  { intros [c0 l0] Hp Ha Hk Hl. cbn in Hp, Ha, Hk, Hl. subst l0.
    rewrite get_new_thor_client_run. cbn.
    destruct (default_thor_client (Client.network c0)) as [c|e] eqn:Hnew;
      [|discriminate].
    assert (H0 : coherent
              {| self := Client.with_thor_client c c0; calls := [] |}).
    { repeat split; cbn; try assumption; [|constructor].
      exists c. split; [reflexivity | apply (default_thor_client_path _ Hnew)]. }
    destruct (truthy phrase).
    - pose proof (set_phrase_coherent phrase H0) as Hset.
      destruct (set_phrase phrase
                  {| self := Client.with_thor_client c c0; calls := [] |})
        as [[a|e] w1]; cbn in *; [|discriminate].
      intros [= <-]. exact Hset.
    - intros [= <-]. exact H0. }
  destruct explorer_url as [url|]; [destruct (truthy url)|];
    cbn; apply Hrest; reflexivity.
Qed.

Lemma exec_coherent (op : Op) (w : World) :
  coherent w -> coherent (exec op w).
Proof.
  intros Hw. destruct op; cbn [exec].
  - apply purge_client_coherent; assumption.
  - apply set_network_coherent; assumption.
  - apply set_phrase_coherent; assumption.
  - apply set_client_url_coherent; assumption.
  - unfold get_prefix. monad. repeat branch; assumption.
  - rewrite get_new_thor_client_run. assumption.
  - destruct (get_private_key w) as [r w'] eqn:Hk.
    apply (get_private_key_coherent Hw Hk).
  - destruct (get_address w) as [r w'] eqn:Ha.
    apply (get_address_coherent Hw Ha).
  - apply get_balance_coherent; assumption.
  - apply transfer_coherent; assumption.
Qed.

Lemma reachable_coherent (w : World) : reachable w -> coherent w.
Proof.
  induction 1 as [phrase network client_url explorer_url w Hinit | op w _ IH].
  - apply (construct_coherent _ _ _ _ Hinit).
  - apply exec_coherent. exact IH.
Qed.

End Invariant.

Section PhraseAndNetwork.
Context {E : Collaborators}.

(** ** [set_phrase] *)

(** C1: when the stored phrase is empty or differs from the argument and
    the argument fails the checksum, [set_phrase] raises
    [Exception("invalid phrase")]; the instance (phrase, private key,
    address and every other attribute) is left as it was, and the only
    call made is the validation. *)
Theorem set_phrase_invalid_raises (w : World) (p : string) :
  Client.phrase (self w) = "" \/ Client.phrase (self w) <> p ->
  validate_phrase p = false ->
  set_phrase p w =
    (Raise (Exception "invalid phrase"),
     {| self := self w; calls := calls w ++ [Call_validate_phrase p] |}).
Proof.
  intros Hnew Hbad. run.
  assert (Hguard : negb (truthy (Client.phrase (self w)))
                   || negb (Client.phrase (self w) =? p) = true).
  { destruct Hnew as [Hunset | Hdiff].
    - rewrite Hunset. reflexivity.
    - apply String.eqb_neq in Hdiff. rewrite Hdiff. apply orb_true_r. }
  rewrite Hguard. cbn. rewrite Hbad. reflexivity.
Qed.

(** ** [get_prefix] *)

Lemma get_prefix_of_instance (w : World) :
  get_prefix None w =
    (Ok (if Client.network (self w) =? "testnet" then "tthor" else "thor"), w).
Proof. reflexivity. Qed.

Lemma get_prefix_explicit_raises (n : string) (w : World) :
  n <> "" -> get_prefix (Some n) w = (Raise (NameError "network"), w).
Proof.
  intros Hn. apply truthy_str_true in Hn.
  unfold get_prefix. cbn. rewrite Hn. reflexivity.
Qed.

(** C2: [get_prefix('testnet')] does not return ['tthor']: the branch taken
    for an explicit argument reads the unbound name [network] and raises
    [NameError]. *)
Theorem get_prefix_explicit_testnet_raises (w : World) :
  get_prefix (Some "testnet") w = (Raise (NameError "network"), w).
Proof. reflexivity. Qed.

(** ** [set_network] *)

(** C4, as amended: for the networks 'testnet' and 'mainnet', [set_network]
    stores the network, replaces the node client by one built for that
    network (its server is the network's default node URL), empties the
    cached address, and leaves the phrase, the private key, and the
    [client_url] and [explorer_url] attributes as they were; no
    collaborator is called. *)
Theorem set_network_known (w : World) (n : string) :
  n = "testnet" \/ n = "mainnet" ->
  exists w',
    set_network n w = (Ok tt, w')
    /\ Client.network (self w') = n
    /\ Client.thor_client (self w') =
         Some (CosmosSDKClient.make
                 (if n =? "testnet"
                  then "https://testnet.thornode.thorchain.info"
                  else "http://138.68.125.107:1317")
                 (if n =? "testnet" then "tthor" else "thor")
                 "m/44'/931'/0'/0/0" "thorchain")
    /\ Client.address (self w') = ""
    /\ Client.phrase (self w') = Client.phrase (self w)
    /\ Client.private_key (self w') = Client.private_key (self w)
    /\ Client.client_url (self w') = Client.client_url (self w)
    /\ Client.explorer_url (self w') = Client.explorer_url (self w)
    /\ calls w' = calls w.
Proof.
  intros [-> | ->]; eexists; (split; [reflexivity|]); cbn; repeat split.
Qed.

(** ** Eager derivation *)

Lemma get_address_cached (w : World) :
  Client.address (self w) <> "" ->
  get_address w = (Ok (Client.address (self w)), w).
Proof.
  intros Ha. apply truthy_str_true in Ha.
  unfold get_address. monad. rewrite Ha. reflexivity.
Qed.

Lemma get_address_returns_stored (w : World) a w' :
  get_address w = (Ok a, w') -> Client.address (self w') = a /\ a <> "".
Proof.
  unfold get_address. monad.
  destruct (truthy (Client.address (self w))) eqn:Hcached; cbn.
  - intros [= <- <-]. split; [reflexivity|].
    apply truthy_str_true. exact Hcached.
  - destruct (Client.thor_client (self w)) as [c|]; [|discriminate].
    destruct (get_private_key w) as [[key|e] w1]; [|discriminate].
    cbn. destruct (privkey_to_address c key) as [a'|e]; [|discriminate].
    cbn. destruct (truthy a') eqn:Hset; cbn; [|discriminate].
    intros [= <- <-]. split; [reflexivity|].
    apply truthy_str_true. exact Hset.
Qed.

(** Whenever [set_phrase] returns, the address cache is filled with what
    it returned. *)
Lemma set_phrase_returns_stored (p : string) (w : World) a w' :
  set_phrase p w = (Ok a, w') -> Client.address (self w') = a /\ a <> "".
Proof.
  unfold set_phrase. monad.
  destruct (negb (truthy (Client.phrase (self w)))
            || negb (Client.phrase (self w) =? p)); cbn.
  - destruct (validate_phrase p); cbn; [|discriminate].
    apply get_address_returns_stored.
  - apply get_address_returns_stored.
Qed.

(** C5, as amended: derivation is not deferred by [set_phrase].  A
    [set_phrase] with a new, non-empty phrase that passes the checksum
    derives the key and the address before it returns: afterwards the
    private key cache holds the key derived from the phrase, the address
    cache holds the returned address, the three calls (validation, key
    derivation, address derivation) have been made, and a following
    [get_address] answers from the cache. *)
Theorem set_phrase_derives (w : World) (p : string)
  (c : CosmosSDKClient.t) (k : bytes) (a : string) :
  Client.phrase (self w) = "" \/ Client.phrase (self w) <> p ->
  p <> "" ->
  validate_phrase p = true ->
  Client.thor_client (self w) = Some c ->
  seed_to_privkey c p = Ok k ->
  privkey_to_address c k = Ok a ->
  a <> "" ->
  exists w',
    set_phrase p w = (Ok a, w')
    /\ Client.phrase (self w') = p
    /\ Client.private_key (self w') = Some k
    /\ Client.address (self w') = a
    /\ calls w' = calls w ++ [Call_validate_phrase p;
                              Call_seed_to_privkey c p;
                              Call_privkey_to_address c k]
    /\ get_address w' = (Ok a, w').
Proof.
  intros Hnew Hp Hvalid Hclient Hkey Haddr Ha.
  assert (Hguard : negb (truthy (Client.phrase (self w)))
                   || negb (Client.phrase (self w) =? p) = true).
  { destruct Hnew as [Hunset | Hdiff].
    - rewrite Hunset. reflexivity.
    - apply String.eqb_neq in Hdiff. rewrite Hdiff. apply orb_true_r. }
  pose proof (proj2 (truthy_str_true p) Hp) as Hp'.
  pose proof (proj2 (truthy_str_true a) Ha) as Ha'.
  eexists. split.
  - run. rewrite Hguard. cbn. rewrite Hvalid. cbn. rewrite Hclient. cbn.
    rewrite Hp'. cbn. rewrite Hclient. cbn. rewrite Hkey. cbn.
    rewrite Haddr. cbn. rewrite Ha'. cbn.
    rewrite <- !app_assoc. reflexivity.
  - cbn. repeat split.
    rewrite get_address_cached; cbn; [reflexivity | exact Ha].
Qed.

End PhraseAndNetwork.

Lemma set_phrase_invalid_raises_witness :
  set_phrase (E := sample_collaborators) "not a mnemonic" sample_world =
    (Raise (Exception "invalid phrase"),
     {| self := self sample_world;
        calls := calls sample_world ++ [Call_validate_phrase "not a mnemonic"] |}).
Proof.
  apply (set_phrase_invalid_raises (E := sample_collaborators)).
  - right. vm_compute. discriminate.
  - reflexivity.
Defined.

(** C4 as stated fails: for a network outside the default URL table the
    lookup raises [KeyError] after [self.network] has been assigned and
    before the address is cleared, so a cached address stays. *)
Lemma set_network_unknown_keeps_address :
  "foo" <> ""
  /\ fst (set_network "foo" sample_world) = Raise (KeyError "foo")
  /\ Client.network (self (snd (set_network "foo" sample_world))) = "foo"
  /\ Client.address (self (snd (set_network "foo" sample_world)))
     = "tthor1qsample"
  /\ Client.address (self (snd (set_network "foo" sample_world))) <> "".
Proof.
  split; [discriminate|]. vm_compute. repeat split. discriminate.
Qed.

Lemma set_network_known_witness :
  exists w',
    set_network "mainnet" sample_world = (Ok tt, w')
    /\ Client.network (self w') = "mainnet"
    /\ Client.thor_client (self w') =
         Some (CosmosSDKClient.make
                 (if "mainnet" =? "testnet"
                  then "https://testnet.thornode.thorchain.info"
                  else "http://138.68.125.107:1317")
                 (if "mainnet" =? "testnet" then "tthor" else "thor")
                 "m/44'/931'/0'/0/0" "thorchain")
    /\ Client.address (self w') = ""
    /\ Client.phrase (self w') = Client.phrase (self sample_world)
    /\ Client.private_key (self w') = Client.private_key (self sample_world)
    /\ Client.client_url (self w') = Client.client_url (self sample_world)
    /\ Client.explorer_url (self w') = Client.explorer_url (self sample_world)
    /\ calls w' = calls sample_world.
Proof.
  apply (set_network_known sample_world (n := "mainnet")).
  right. reflexivity.
Defined.

(** C5 as stated fails: after a successful [set_phrase] both caches are
    filled. *)
Lemma set_phrase_fills_caches :
  set_phrase (E := sample_collaborators) sample_phrase sample_empty_world
    = (Ok "tthor1qsample", sample_world)
  /\ Client.private_key (self sample_world)
     = Some (list_byte_of_string "abandon")
  /\ Client.address (self sample_world) = "tthor1qsample".
Proof. vm_compute. repeat split. Qed.

Lemma set_phrase_derives_witness :
  exists w',
    set_phrase (E := sample_collaborators) sample_phrase sample_empty_world
      = (Ok "tthor1qsample", w')
    /\ Client.phrase (self w') = sample_phrase
    /\ Client.private_key (self w') = Some (list_byte_of_string "abandon")
    /\ Client.address (self w') = "tthor1qsample"
    /\ calls w' =
         calls sample_empty_world
           ++ [Call_validate_phrase sample_phrase;
               Call_seed_to_privkey
                 (CosmosSDKClient.make
                    "https://testnet.thornode.thorchain.info" "tthor"
                    "m/44'/931'/0'/0/0" "thorchain")
                 sample_phrase;
               Call_privkey_to_address
                 (CosmosSDKClient.make
                    "https://testnet.thornode.thorchain.info" "tthor"
                    "m/44'/931'/0'/0/0" "thorchain")
                 (list_byte_of_string "abandon")]
    /\ get_address (E := sample_collaborators) w' = (Ok "tthor1qsample", w').
Proof.
  apply (set_phrase_derives (E := sample_collaborators)).
  - left. reflexivity.
  - vm_compute. discriminate.
  - reflexivity.
  - reflexivity.
  - reflexivity.
  - reflexivity.
  - discriminate.
Defined.

Section BalanceAndPurge.
Context {E : Collaborators}.

(** ** Without a phrase *)

Lemma get_private_key_phrase_not_set (w : World) :
  Client.phrase (self w) = "" ->
  Client.private_key (self w) = None ->
  get_private_key w = (Raise (Exception "Phrase not set"), w).
Proof.
  intros Hp Hk. unfold get_private_key, derive_private_key. monad.
  rewrite Hk, Hp. reflexivity.
Qed.

Lemma get_address_phrase_not_set (w : World) :
  purged (self w) ->
  Client.thor_client (self w) <> None ->
  get_address w = (Raise (Exception "Phrase not set"), w).
Proof.
  intros (Hp & Ha & Hk) Hc. unfold get_address. monad.
  rewrite Ha. cbn.
  destruct (Client.thor_client (self w)); [|contradiction].
  rewrite get_private_key_phrase_not_set by assumption. reflexivity.
Qed.

Lemma get_balance_purged (w : World) (address asset : option string) :
  purged (self w) ->
  Client.thor_client (self w) <> None ->
  truthy address = false ->
  get_balance address asset w = (Raise (Exception "Phrase not set"), w).
Proof.
  intros Hpurged Hc Haddr.
  pose proof (get_address_phrase_not_set w Hpurged Hc) as Hget.
  unfold get_balance. monad.
  destruct address as [a|]; cbn in Haddr.
  - rewrite Haddr. rewrite Hget. reflexivity.
  - rewrite Hget. reflexivity.
Qed.

(** C6: on a client without a phrase, [get_balance] called without an
    address (none given, or an empty one) raises
    [Exception('Phrase not set')] and leaves the world as it was: nothing
    is changed and no collaborator, the node included, has been called. *)
Theorem get_balance_phrase_not_set (w : World) (address asset : option string) :
  reachable w ->
  Client.phrase (self w) = "" ->
  truthy address = false ->
  get_balance address asset w = (Raise (Exception "Phrase not set"), w).
Proof.
  intros Hw Hp Haddr.
  destruct (reachable_coherent Hw) as ((c & Hc & _) & Hcaches & _).
  destruct (Hcaches Hp) as (Ha & Hk).
  apply get_balance_purged; [| rewrite Hc; discriminate | exact Haddr].
  repeat split; assumption.
Qed.

(** ** The balance filter *)

Lemma collect_from asset (response : list Coin.t) (acc : list Balance.t) :
  asset <> "" ->
  fold_left
    (fun balances balance =>
       if keep_balance (Some asset) balance then
         balances ++
           [Balance.make (Coin.denom balance) (Coin.amount balance)]
       else balances)
    response acc
  = acc ++ balances_of asset response.
Proof.
  intros Hasset. apply truthy_str_true in Hasset.
  revert acc. induction response as [|coin rest IH]; intros acc; cbn.
  - rewrite app_nil_r. reflexivity.
  - rewrite IH. unfold keep_balance, balances_of. cbn.
    change (truthy (Some asset)) with (truthy asset). rewrite Hasset. cbn.
    destruct (Coin.denom coin =? asset); cbn.
    + rewrite <- app_assoc. reflexivity.
    + reflexivity.
Qed.

Lemma collect_balances_filters asset (response : list Coin.t) :
  asset <> "" ->
  collect_balances (Some asset) response = balances_of asset response.
Proof.
  intros Hasset. unfold collect_balances.
  rewrite collect_from by assumption. reflexivity.
Qed.

Lemma collect_all_from asset (response : list Coin.t) (acc : list Balance.t) :
  truthy asset = false ->
  fold_left
    (fun balances balance =>
       if keep_balance asset balance then
         balances ++
           [Balance.make (Coin.denom balance) (Coin.amount balance)]
       else balances)
    response acc
  = acc ++ all_balances response.
Proof.
  intros Hasset.
  revert acc. induction response as [|coin rest IH]; intros acc; cbn.
  - rewrite app_nil_r. reflexivity.
  - rewrite IH. unfold keep_balance. rewrite Hasset. cbn.
    rewrite <- app_assoc. reflexivity.
Qed.

(** Without an asset, or with the empty string for one, every entry is
    returned. *)
Lemma collect_balances_all asset (response : list Coin.t) :
  truthy asset = false ->
  collect_balances asset response = all_balances response.
Proof.
  intros Hasset. unfold collect_balances.
  rewrite collect_all_from by assumption. reflexivity.
Qed.

Lemma get_balance_run (w w1 : World) (address asset : option string)
  (addr : string) (c : CosmosSDKClient.t) :
  (address = Some addr /\ addr <> "" /\ w1 = w)
  \/ (truthy address = false /\ get_address w = (Ok addr, w1)) ->
  Client.thor_client (self w1) = Some c ->
  get_balance address asset w =
    (match thor_get_balance c addr with
     | Ok response => Ok (collect_balances asset (result response))
     | Raise e => Raise e
     end,
     {| self := self w1; calls := calls w1 ++ [Call_get_balance c addr] |}).
Proof.
  intros Hresolve Hc. unfold get_balance. unfold bind at 1.
  assert (Hres : match address with
                 | Some a => if truthy a then ret a else get_address
                 | None => get_address
                 end w = (Ok addr, w1)).
  { destruct Hresolve as [(-> & Haddr & ->) | (Hfalse & Hget)].
    - apply truthy_str_true in Haddr. rewrite Haddr. reflexivity.
    - destruct address as [a|]; cbn in Hfalse.
      + rewrite Hfalse. exact Hget.
      + exact Hget. }
  rewrite Hres. monad. rewrite Hc.
  destruct (thor_get_balance c addr); reflexivity.
Qed.

(** C7: once the address is settled (given, or resolved from the client)
    and the node has answered, [get_balance] with an asset returns the
    entries of the response whose denomination equals the asset, as
    [{asset, amount}] pairs in response order; and for a response without
    entries it returns the empty list whatever the asset argument. *)
Theorem get_balance_filters_by_asset (w w1 : World) (address : option string)
  (addr asset : string) (c : CosmosSDKClient.t) (response : Response) :
  (address = Some addr /\ addr <> "" /\ w1 = w)
  \/ (truthy address = false /\ get_address w = (Ok addr, w1)) ->
  Client.thor_client (self w1) = Some c ->
  thor_get_balance c addr = Ok response ->
  asset <> "" ->
  get_balance address (Some asset) w =
    (Ok (balances_of asset (result response)),
     {| self := self w1; calls := calls w1 ++ [Call_get_balance c addr] |})
  /\ (result response = [] ->
      forall any, fst (get_balance address any w) = Ok []).
Proof.
  intros Hresolve Hc Hnode Hasset. split.
  - rewrite (get_balance_run (Some asset) Hresolve Hc).
    rewrite Hnode. rewrite collect_balances_filters by assumption.
    reflexivity.
  - intros Hempty any.
    rewrite (get_balance_run any Hresolve Hc).
    rewrite Hnode, Hempty. reflexivity.
Qed.

(** ** After [purge_client] *)

Lemma exec_keeps_purged (op : Op) (w : World) :
  purged (self w) ->
  Client.thor_client (self w) <> None ->
  is_set_phrase op = false ->
  purged (self (exec op w)) /\ Client.thor_client (self (exec op w)) <> None.
Proof.
  intros Hpurged Hc Hop.
  pose proof Hpurged as (Hp & Ha & Hk).
  destruct op; cbn [exec]; try discriminate Hop.
  - unfold purge_client. monad. cbn. repeat split. exact Hc.
  - unfold set_network. monad.
    destruct (negb (truthy network)); cbn; [split; assumption|].
    rewrite get_new_thor_client_run. cbn.
    destruct (default_thor_client network); cbn;
      repeat split; assumption || discriminate.
  - unfold set_client_url. monad.
    rewrite get_new_thor_client_run. cbn.
    destruct (default_thor_client (Client.network (self w))); cbn;
      repeat split; assumption || discriminate.
  - unfold get_prefix. monad. repeat branch; split; assumption.
  - rewrite get_new_thor_client_run. split; assumption.
  - rewrite get_private_key_phrase_not_set by assumption. split; assumption.
  - rewrite get_address_phrase_not_set by assumption. split; assumption.
  - destruct (truthy address) eqn:Haddr.
    + destruct address as [a|]; [|discriminate]. cbn in Haddr.
      apply truthy_str_true in Haddr.
      destruct (Client.thor_client (self w)) as [c|] eqn:Hsome;
        [|contradiction].
      rewrite (get_balance_run asset
                 (or_introl (conj eq_refl (conj Haddr eq_refl))) Hsome).
      cbn. split; [assumption | rewrite Hsome; discriminate].
    + rewrite get_balance_purged by assumption. split; assumption.
  - unfold transfer. monad.
    destruct (Client.thor_client (self w)) eqn:Hsome; [|contradiction].
    rewrite get_private_key_phrase_not_set by assumption. cbn.
    split; [assumption | rewrite Hsome; discriminate].
Qed.

(** C9: after [purge_client] the phrase and the address are empty and
    the private key is [None]; this stays so through any operations other
    than [set_phrase], and then [get_private_key] and [get_address] both
    raise [Exception('Phrase not set')] without changing anything. *)
Theorem purge_client_then_phrase_not_set (w : World) (ops : list Op) :
  Client.thor_client (self w) <> None ->
  forallb (fun op => negb (is_set_phrase op)) ops = true ->
  let w' := exec_all ops (snd (purge_client w)) in
  purged (self w')
  /\ get_private_key w' = (Raise (Exception "Phrase not set"), w')
  /\ get_address w' = (Raise (Exception "Phrase not set"), w').
Proof.
  intros Hc Hops.
  assert (Hstart : purged (self (snd (purge_client w)))
                   /\ Client.thor_client (self (snd (purge_client w))) <> None).
  { unfold purge_client. monad. cbn. repeat split. exact Hc. }
  generalize dependent (snd (purge_client w)). clear w Hc.
  induction ops as [|op ops IH]; intros w (Hpurged & Hc); cbn.
  - split; [exact Hpurged|]. split.
    + destruct Hpurged as (Hp & _ & Hk).
      apply get_private_key_phrase_not_set; assumption.
    + apply get_address_phrase_not_set; assumption.
  - cbn in Hops. apply andb_true_iff in Hops. destruct Hops as (Hop & Hrest).
    apply negb_true_iff in Hop.
    apply (IH Hrest). apply exec_keeps_purged; assumption.
Qed.

(** ** [set_phrase] with the stored phrase *)

Lemma derive_private_key_frame (w : World) :
  Client.phrase (self (snd (derive_private_key w))) = Client.phrase (self w)
  /\ exists new,
       calls (snd (derive_private_key w)) = calls w ++ new
       /\ Forall (fun c => is_validation c = false) new.
Proof.
  unfold derive_private_key. monad.
  destruct (negb (truthy (Client.phrase (self w)))); cbn.
  - split; [reflexivity|].
    exists []. split; [symmetry; apply app_nil_r | constructor].
  - destruct (Client.thor_client (self w)) as [c|]; cbn.
    + destruct (seed_to_privkey c (Client.phrase (self w))); cbn;
        (split; [reflexivity|]); eexists;
        (split; [reflexivity | repeat constructor]).
    + split; [reflexivity|].
      exists []. split; [symmetry; apply app_nil_r | constructor].
Qed.

Lemma get_private_key_frame (w : World) :
  Client.phrase (self (snd (get_private_key w))) = Client.phrase (self w)
  /\ exists new,
       calls (snd (get_private_key w)) = calls w ++ new
       /\ Forall (fun c => is_validation c = false) new.
Proof.
  unfold get_private_key. monad.
  destruct (Client.private_key (self w)) as [key|];
    [destruct (truthy key)|]; try apply derive_private_key_frame.
  cbn. split; [reflexivity|].
  exists []. split; [symmetry; apply app_nil_r | constructor].
Qed.

Lemma get_address_frame (w : World) :
  Client.phrase (self (snd (get_address w))) = Client.phrase (self w)
  /\ exists new,
       calls (snd (get_address w)) = calls w ++ new
       /\ Forall (fun c => is_validation c = false) new.
Proof.
  unfold get_address. monad.
  destruct (get_private_key_frame w) as (Hp & keycalls & Hcalls & Hnone).
  destruct (negb (truthy (Client.address (self w)))); cbn.
  - destruct (Client.thor_client (self w)) as [c|]; cbn.
    + destruct (get_private_key w) as [[key|e] w1]; cbn in *.
      * assert (Hlog : calls w1 ++ [Call_privkey_to_address c key]
                       = calls w ++ (keycalls ++ [Call_privkey_to_address c key]))
          by (rewrite Hcalls, app_assoc; reflexivity).
        assert (Hall : Forall (fun c => is_validation c = false)
                         (keycalls ++ [Call_privkey_to_address c key]))
          by (apply Forall_app; split; [assumption | repeat constructor]).
        destruct (privkey_to_address c key) as [a|e]; cbn.
        -- destruct (negb (truthy a)); cbn; (split; [assumption|]);
             exists (keycalls ++ [Call_privkey_to_address c key]);
             split; assumption.
        -- split; [assumption|].
           exists (keycalls ++ [Call_privkey_to_address c key]).
           split; assumption.
      * split; [assumption|]. exists keycalls. split; assumption.
    + split; [reflexivity|]. exists []. split; [symmetry; apply app_nil_r | constructor].
  - split; [reflexivity|]. exists []. split; [symmetry; apply app_nil_r | constructor].
Qed.

(** C10, as amended: on a client whose phrase is set, [set_phrase] with
    that same phrase is [get_address]: it validates nothing and keeps the
    phrase.  When the address is cached it returns the cached address and
    changes nothing; when the address cache is empty the address (and a
    missing key) is derived again and stored. *)
Theorem set_phrase_same_phrase (w : World) (p : string) :
  Client.phrase (self w) = p ->
  p <> "" ->
  set_phrase p w = get_address w
  /\ Client.phrase (self (snd (set_phrase p w))) = p
  /\ (exists new,
        calls (snd (set_phrase p w)) = calls w ++ new
        /\ Forall (fun c => is_validation c = false) new)
  /\ (Client.address (self w) <> "" ->
      set_phrase p w = (Ok (Client.address (self w)), w)).
Proof.
  intros Hsame Hp.
  assert (Hrun : set_phrase p w = get_address w).
  { apply truthy_str_true in Hp. unfold set_phrase. monad.
    rewrite Hsame, Hp, String.eqb_refl. reflexivity. }
  rewrite Hrun. destruct (get_address_frame w) as (Hphrase & Hcalls).
  split; [reflexivity|]. split; [congruence|]. split; [exact Hcalls|].
  apply get_address_cached.
Qed.

End BalanceAndPurge.

Lemma get_balance_phrase_not_set_witness :
  get_balance (E := sample_collaborators) None (Some "rune") sample_empty_world
  = (Raise (Exception "Phrase not set"), sample_empty_world).
Proof.
  apply (get_balance_phrase_not_set (E := sample_collaborators)).
  - apply reachable_construct
      with (phrase := "") (network := "testnet")
           (client_url := None) (explorer_url := None).
    reflexivity.
  - reflexivity.
  - reflexivity.
Defined.

Lemma get_balance_filters_by_asset_witness :
  get_balance (E := sample_collaborators) None (Some "rune") sample_world =
    (Ok (balances_of "rune" sample_holdings),
     {| self := self sample_world;
        calls := calls sample_world
                   ++ [Call_get_balance
                         (CosmosSDKClient.make
                            "https://testnet.thornode.thorchain.info" "tthor"
                            "m/44'/931'/0'/0/0" "thorchain")
                         "tthor1qsample"] |})
  /\ (sample_holdings = [] ->
      forall any,
        fst (get_balance (E := sample_collaborators) None any sample_world)
        = Ok []).
Proof.
  apply (get_balance_filters_by_asset (E := sample_collaborators)
           (w := sample_world) (w1 := sample_world) (address := None)
           (addr := "tthor1qsample") (asset := "rune")
           (c := CosmosSDKClient.make
                   "https://testnet.thornode.thorchain.info" "tthor"
                   "m/44'/931'/0'/0/0" "thorchain")
           (response := {| height := "0"; result := sample_holdings |})).
  - right. split; reflexivity.
  - reflexivity.
  - reflexivity.
  - discriminate.
Defined.

Lemma purge_client_then_phrase_not_set_witness :
  let w' :=
    exec_all (E := sample_collaborators)
      [Op_set_network "mainnet"; Op_get_address;
       Op_get_balance (Some "thor1qsample") None]
      (snd (purge_client sample_world)) in
  purged (self w')
  /\ get_private_key (E := sample_collaborators) w'
     = (Raise (Exception "Phrase not set"), w')
  /\ get_address (E := sample_collaborators) w'
     = (Raise (Exception "Phrase not set"), w').
Proof.
  apply (purge_client_then_phrase_not_set (E := sample_collaborators)).
  - vm_compute. discriminate.
  - reflexivity.
Defined.

(** C10 as stated fails: after a switch of network the phrase is still
    set but the address cache is empty, and [set_phrase] with the same
    phrase fills it. *)
Lemma set_phrase_same_phrase_rederives :
  Client.phrase (self sample_mainnet_world) = sample_phrase
  /\ Client.address (self sample_mainnet_world) = ""
  /\ fst (set_phrase (E := sample_collaborators) sample_phrase
            sample_mainnet_world) = Ok "thor1qsample"
  /\ Client.address
       (self (snd (set_phrase (E := sample_collaborators) sample_phrase
                     sample_mainnet_world))) = "thor1qsample".
Proof. vm_compute. repeat split. Qed.

Lemma set_phrase_same_phrase_witness :
  set_phrase (E := sample_collaborators) sample_phrase sample_world
    = get_address (E := sample_collaborators) sample_world
  /\ Client.phrase
       (self (snd (set_phrase (E := sample_collaborators) sample_phrase
                     sample_world))) = sample_phrase
  /\ (exists new,
        calls (snd (set_phrase (E := sample_collaborators) sample_phrase
                      sample_world)) = calls sample_world ++ new
        /\ Forall (fun c => is_validation c = false) new)
  /\ (Client.address (self sample_world) <> "" ->
      set_phrase (E := sample_collaborators) sample_phrase sample_world
      = (Ok (Client.address (self sample_world)), sample_world)).
Proof.
  apply (set_phrase_same_phrase (E := sample_collaborators)).
  - reflexivity.
  - vm_compute. discriminate.
Defined.

(** ** Key derivation on Binance Chain *)

Section Determinism.
Context {W : Type} {L : BinanceCrypto.Libraries W}.

Lemma state_independent_ret {A} (a : A) :
  BinanceCrypto.state_independent (ret (S := W) a).
Proof. intros w1 w2. reflexivity. Qed.

(** Sequencing keeps the outcome independent of the state: the first
    computation gives the same outcome from both states, and on a value
    the continuation does. *)
Lemma state_independent_bind {A B} (c : ST W A) (k : A -> ST W B) :
  BinanceCrypto.state_independent c ->
  (forall a, BinanceCrypto.state_independent (k a)) ->
  BinanceCrypto.state_independent (bind c k).
Proof.
  intros Hc Hk w1 w2. unfold bind.
  specialize (Hc w1 w2).
  destruct (c w1) as [r1 w1'], (c w2) as [r2 w2']. cbn in Hc. subst r2.
  destruct r1 as [a|e].
  - apply Hk.
  - reflexivity.
Qed.

Lemma mnemonicToSeed_state_independent (mnemonic passPhrase : string) :
  BinanceCrypto.deterministic_libraries ->
  BinanceCrypto.state_independent
    (BinanceCrypto.mnemonicToSeed mnemonic passPhrase).
Proof.
  intros Hlib. unfold BinanceCrypto.mnemonicToSeed.
  apply state_independent_bind; [apply Hlib|]. intros mnemo.
  apply state_independent_bind; [apply Hlib|]. intros seed.
  apply state_independent_ret.
Qed.

End Determinism.

(** On the stand-in libraries the call returns, and the second call starts
    from the state the first one left. *)
Example mnemonicToPrivateKey_runs :
  BinanceCrypto.mnemonicToPrivateKey
    (L := BinanceCrypto.sample_libraries) "a b" "" 0
  = (Ok "a bm/44'/714'/0'/0/0", 6).
Proof. reflexivity. Qed.

(** ** The stand-ins at work *)

Example construct_sample :
  construct (E := sample_collaborators) sample_phrase "testnet" None None
  = Ok sample_world.
Proof. reflexivity. Qed.

Example construct_without_phrase :
  construct (E := sample_collaborators) "" "testnet" None None
  = Ok sample_empty_world.
Proof. reflexivity. Qed.

Example construct_unknown_network :
  construct (E := sample_collaborators) "" "stagenet" None None
  = Raise (KeyError "stagenet").
Proof. reflexivity. Qed.

Example get_balance_sample_rune :
  fst (get_balance (E := sample_collaborators) None (Some "rune") sample_world)
  = Ok [Balance.make "rune" "100"; Balance.make "rune" "7"].
Proof. reflexivity. Qed.

Example get_balance_sample_empty_asset :
  fst (get_balance (E := sample_collaborators) None (Some "") sample_world)
  = Ok (all_balances sample_holdings).
Proof. reflexivity. Qed.

(** * Further properties *)

(** ** A second invariant *)

Lemma sound_log {E : Collaborators} c l x :
  sound {| self := c; calls := l |} -> derives_from_valid x ->
  sound {| self := c; calls := l ++ [x] |}.
Proof.
  intros (Hp & Hl & Hn & Ha) Hx. repeat split; cbn; try assumption.
  apply Forall_app. split; [assumption | constructor; [assumption | constructor]].
Qed.

Lemma sound_key {E : Collaborators} c l k :
  sound {| self := c; calls := l |} ->
  sound {| self := Client.with_private_key k c; calls := l |}.
Proof. intros (Hp & Hl & Hn & Ha). repeat split; assumption. Qed.

Lemma sound_address {E : Collaborators} c l a :
  sound {| self := c; calls := l |} ->
  (a <> "" -> exists client key,
      Client.thor_client c = Some client
      /\ privkey_to_address client key = Ok a) ->
  sound {| self := Client.with_address a c; calls := l |}.
Proof. intros (Hp & Hl & Hn & _) Ha. repeat split; assumption. Qed.

Section SecondInvariant.
Context {E : Collaborators}.

Lemma derive_private_key_sound (w : World) r w' :
  sound w ->
  derive_private_key w = (r, w') ->
  sound w' /\ Client.thor_client (self w') = Client.thor_client (self w).
Proof.
  destruct w as [c l]. intros Hw. unfold derive_private_key. monad.
  destruct (truthy (Client.phrase c)) eqn:Hp; cbn.
  - apply truthy_str_true in Hp.
    destruct (Client.thor_client c) as [client|] eqn:Hsome; cbn.
    + assert (Hlogged : sound
                {| self := c;
                   calls := l ++ [Call_seed_to_privkey client (Client.phrase c)] |}).
      { apply sound_log; [assumption|]. cbn.
        destruct Hw as ([Hno | Hvalid] & _); [contradiction | exact Hvalid]. }
      destruct (seed_to_privkey client (Client.phrase c)) as [k|e];
        cbn; intros [= <- <-]; cbn.
      * split; [apply sound_key; assumption | exact Hsome].
      * split; [assumption | exact Hsome].
    + intros [= <- <-]. split; [assumption | exact Hsome].
  - intros [= <- <-]. split; [assumption | reflexivity].
Qed.

Lemma get_private_key_sound (w : World) r w' :
  sound w ->
  get_private_key w = (r, w') ->
  sound w' /\ Client.thor_client (self w') = Client.thor_client (self w).
Proof.
  intros Hw. unfold get_private_key. monad.
  destruct (Client.private_key (self w)) as [key|];
    [destruct (truthy key)|]; try (apply derive_private_key_sound; assumption).
  intros [= <- <-]. split; [assumption | reflexivity].
Qed.

Lemma get_address_sound (w : World) r w' :
  sound w -> get_address w = (r, w') -> sound w'.
Proof.
  intros Hw. unfold get_address. monad.
  destruct (truthy (Client.address (self w))); cbn.
  - intros [= <- <-]. exact Hw.
  - destruct (Client.thor_client (self w)) as [client|] eqn:Hsome; cbn;
      [|intros [= <- <-]; exact Hw].
    destruct (get_private_key w) as [[key|e] w1] eqn:Hk;
      destruct (get_private_key_sound Hw Hk) as (Hw1 & Ht1);
      [|intros [= <- <-]; exact Hw1].
    destruct w1 as [c1 l1]. cbn in Ht1. cbn.
    assert (Hlogged : sound
              {| self := c1;
                 calls := l1 ++ [Call_privkey_to_address client key] |})
      by (apply sound_log; [assumption | exact I]).
    destruct (privkey_to_address client key) as [a|e] eqn:Haddr; cbn;
      [|intros [= <- <-]; exact Hlogged].
    assert (Hset : sound
              {| self := Client.with_address a c1;
                 calls := l1 ++ [Call_privkey_to_address client key] |}).
    { apply sound_address; [assumption|]. intros _.
      exists client, key. split; [congruence | exact Haddr]. }
    destruct (truthy a); cbn; intros [= <- <-]; exact Hset.
Qed.

Lemma set_phrase_sound (p : string) (w : World) :
  sound w -> sound (snd (set_phrase p w)).
Proof.
  destruct w as [c l]. intros Hw. unfold set_phrase. monad.
  destruct (negb (truthy (Client.phrase c)) || negb (Client.phrase c =? p)).
  - cbn. destruct (validate_phrase p) eqn:Hvalid; cbn.
    + match goal with
      | |- context [get_address ?w0] =>
          assert (H0 : sound w0);
          [| destruct (get_address w0) as [r w'] eqn:Ha;
             apply (get_address_sound H0 Ha)]
      end.
      destruct Hw as (_ & Hl & Hn & _).
      repeat split; cbn.
      * right. exact Hvalid.
      * apply Forall_app. split; [assumption | repeat constructor].
      * exact Hn.
      * intros Hne. contradiction.
    + apply sound_log; [assumption | exact I].
  - cbn. destruct (get_address {| self := c; calls := l |}) as [r w'] eqn:Ha.
    apply (get_address_sound Hw Ha).
Qed.

Lemma set_network_sound (n : string) (w : World) :
  sound w -> sound (snd (set_network n w)).
Proof.
  destruct w as [c l]. intros Hw. unfold set_network. monad.
  destruct (negb (truthy n)); [exact Hw|].
  rewrite get_new_thor_client_run. cbn.
  destruct Hw as (Hp & Hl & Hn & Ha).
  destruct (default_thor_client n) as [c'|e] eqn:Hnew; cbn.
  - repeat split; cbn; try assumption.
    + intros client Hclient. congruence.
    + intros Hne. contradiction.
  - repeat split; cbn; try assumption.
    intros client Hclient. congruence.
Qed.

Lemma set_client_url_sound (u : string) (w : World) :
  sound w -> sound (snd (set_client_url u w)).
Proof.
  destruct w as [c l]. intros Hw. unfold set_client_url. monad.
  rewrite get_new_thor_client_run. cbn.
  destruct Hw as (Hp & Hl & Hn & Ha). cbn in Hp, Hl, Hn, Ha.
  destruct (default_thor_client (Client.network c)) as [c'|e] eqn:Hnew; cbn.
  - repeat split; cbn; try assumption.
    + intros client Hclient. congruence.
    + rewrite <- (Hn c' eq_refl). exact Ha.
  - repeat split; cbn; try assumption.
    intros client Hclient. congruence.
Qed.

Lemma purge_client_sound (w : World) :
  sound w -> sound (snd (purge_client w)).
Proof.
  destruct w as [c l]. intros (Hp & Hl & Hn & Ha).
  unfold purge_client. monad. cbn.
  repeat split; cbn; try assumption.
  - left. reflexivity.
  - intros Hne. contradiction.
Qed.

Lemma get_balance_sound (address asset : option string) (w : World) :
  sound w -> sound (snd (get_balance address asset w)).
Proof.
  intros Hw. unfold get_balance.
  apply bind_preserves. intros r1 w1 H1.
  assert (Hw1 : sound w1).
  { destruct address as [a|]; [destruct (truthy a)|].
    - injection H1 as _ <-. exact Hw.
    - apply (get_address_sound Hw H1).
    - apply (get_address_sound Hw H1). }
  split; [exact Hw1|]. intros a _.
  apply bind_preserves. intros r2 w2 H2.
  apply attr_opt_world in H2. subst w2.
  split; [exact Hw1|]. intros c _.
  apply bind_preserves. intros r3 w3 H3.
  assert (Hw3 : sound w3).
  { replace w3 with (snd (call_get_balance c a w1)) by (rewrite H3; reflexivity).
    destruct w1. apply sound_log; [assumption | exact I]. }
  split; [exact Hw3|]. intros response _. exact Hw3.
Qed.

Lemma transfer_sound (t : Transfer) (w : World) :
  sound w -> sound (snd (transfer t w)).
Proof.
  intros Hw. unfold transfer.
  apply bind_preserves. intros r1 w1 H1.
  apply attr_opt_world in H1. subst w1.
  split; [exact Hw|]. intros c _.
  apply bind_preserves. intros r2 w2 H2.
  destruct (get_private_key_sound Hw H2) as (Hw2 & _).
  split; [exact Hw2|]. intros key _.
  apply bind_preserves. intros r3 w3 H3.
  pose proof (get_address_sound Hw2 H3) as Hw3.
  split; [exact Hw3|]. intros sender _.
  destruct w3. apply sound_log; [assumption | exact I].
Qed.

Lemma exec_sound (op : Op) (w : World) : sound w -> sound (exec op w).
Proof.
  intros Hw. destruct op; cbn [exec].
  - apply purge_client_sound; assumption.
  - apply set_network_sound; assumption.
  - apply set_phrase_sound; assumption.
  - apply set_client_url_sound; assumption.
  - unfold get_prefix. monad. repeat branch; assumption.
  - rewrite get_new_thor_client_run. assumption.
  - destruct (get_private_key w) as [r w'] eqn:Hk.
    apply (get_private_key_sound Hw Hk).
  - destruct (get_address w) as [r w'] eqn:Ha.
    apply (get_address_sound Hw Ha).
  - apply get_balance_sound; assumption.
  - apply transfer_sound; assumption.
Qed.

End SecondInvariant.

(** ** Construction *)

Lemma construct_run {E : Collaborators} phrase network client_url explorer_url :
  construct phrase network client_url explorer_url =
    match default_thor_client network with
    | Ok c =>
        if truthy phrase then
          match set_phrase phrase
                  (blank_world network client_url explorer_url c) with
          | (Ok _, w) => Ok w
          | (Raise e, _) => Raise e
          end
        else Ok (blank_world network client_url explorer_url c)
    | Raise e => Raise e
    end.
Proof.
  assert (Hlast : forall c0 c,
             {| self := Client.with_thor_client c c0; calls := [] |}
             = blank_world network client_url explorer_url c ->
             match
               (if truthy phrase
                then fun w2 =>
                       match set_phrase phrase w2 with
                       | (Ok _, w3) => (Ok tt, w3)
                       | (Raise e, w3) => (Raise e, w3)
                       end
                else fun w2 => (Ok tt, w2))
                 {| self := Client.with_thor_client c c0; calls := [] |}
             with
             | (Ok _, w) => Ok w
             | (Raise e, _) => Raise e
             end
             = (if truthy phrase then
                  match set_phrase phrase
                          (blank_world network client_url explorer_url c) with
                  | (Ok _, w) => Ok w
                  | (Raise e, _) => Raise e
                  end
                else Ok (blank_world network client_url explorer_url c))).
  { intros c0 c ->. destruct (truthy phrase); [|reflexivity].
    destruct (set_phrase phrase (blank_world network client_url explorer_url c))
      as [[a|e] w1]; reflexivity. }
  unfold construct, __init__, get_default_explorer_url. monad.
  destruct explorer_url as [url|]; [destruct (truthy url) eqn:Hurl|];
    cbn; rewrite get_new_thor_client_run; cbn;
    (destruct (default_thor_client network) as [c|e]; [|reflexivity]);
    apply Hlast; unfold blank_world, py_or; rewrite ?Hurl; reflexivity.
Qed.

Lemma default_thor_client_known network c :
  default_thor_client network = Ok c ->
  network = "testnet" \/ network = "mainnet".
Proof.
  unfold default_thor_client, get_default_client_url. cbn [dict_get].
  destruct ("testnet" =? network) eqn:Ht.
  - apply String.eqb_eq in Ht. left. symmetry. exact Ht.
  - destruct ("mainnet" =? network) eqn:Hm; [|discriminate].
    apply String.eqb_eq in Hm. right. symmetry. exact Hm.
Qed.

Lemma default_thor_client_unknown network :
  network <> "testnet" -> network <> "mainnet" ->
  default_thor_client network = Raise (KeyError network).
Proof.
  intros Ht Hm. unfold default_thor_client, get_default_client_url.
  cbn [dict_get].
  assert (Ht' : ("testnet" =? network) = false)
    by (apply String.eqb_neq; congruence).
  assert (Hm' : ("mainnet" =? network) = false)
    by (apply String.eqb_neq; congruence).
  rewrite Ht', Hm'. reflexivity.
Qed.

Section Construction.
Context {E : Collaborators}.

Lemma blank_world_sound network client_url explorer_url c :
  default_thor_client network = Ok c ->
  sound (blank_world network client_url explorer_url c).
Proof.
  intros Hc. repeat split; cbn.
  - left. reflexivity.
  - constructor.
  - intros client Hclient. congruence.
  - intros Hne. contradiction.
Qed.

Lemma construct_sound phrase network client_url explorer_url (w : World) :
  construct phrase network client_url explorer_url = Ok w -> sound w.
Proof.
  rewrite construct_run.
  destruct (default_thor_client network) as [c|e] eqn:Hc; [|discriminate].
  pose proof (blank_world_sound network client_url explorer_url Hc) as H0.
  destruct (truthy phrase).
  - pose proof (set_phrase_sound phrase H0) as Hset.
    destruct (set_phrase phrase (blank_world network client_url explorer_url c))
      as [[a|e] w1]; [|discriminate].
    intros [= <-]. exact Hset.
  - intros [= <-]. exact H0.
Qed.

Lemma reachable_sound (w : World) : reachable w -> sound w.
Proof.
  induction 1 as [phrase network client_url explorer_url w Hinit | op w _ IH].
  - apply (construct_sound _ _ _ _ Hinit).
  - apply exec_sound. exact IH.
Qed.

(** X13: the phrase a client stores is empty or has passed the checksum,
    and every key derivation the client has asked for was given a phrase
    that passes the checksum. *)
Theorem stored_phrase_validated (w : World) :
  reachable w ->
  (Client.phrase (self w) = ""
   \/ validate_phrase (Client.phrase (self w)) = true)
  /\ Forall derives_from_valid (calls w).
Proof.
  intros Hw. destruct (reachable_sound Hw) as (Hp & Hl & _).
  split; assumption.
Qed.

(** X14: when the network of a client is 'testnet' or 'mainnet', its node
    client is the one built for that network; and a cached address is an
    answer of the node client the client holds now. *)
Theorem cached_address_from_node_client (w : World) :
  reachable w ->
  (forall client,
      default_thor_client (Client.network (self w)) = Ok client ->
      Client.thor_client (self w) = Some client)
  /\ (Client.address (self w) <> "" ->
      exists client key,
        Client.thor_client (self w) = Some client
        /\ privkey_to_address client key = Ok (Client.address (self w))).
Proof.
  intros Hw. destruct (reachable_sound Hw) as (_ & _ & Hn & Ha).
  split; assumption.
Qed.

End Construction.

Lemma stored_phrase_validated_witness :
  (Client.phrase (self sample_mainnet_world) = ""
   \/ validate_phrase (Collaborators := sample_collaborators)
        (Client.phrase (self sample_mainnet_world)) = true)
  /\ Forall (derives_from_valid (E := sample_collaborators))
       (calls sample_mainnet_world).
Proof.
  apply (stored_phrase_validated (E := sample_collaborators)).
  apply (reachable_exec (E := sample_collaborators) (Op_set_network "mainnet")).
  apply reachable_construct
    with (phrase := sample_phrase) (network := "testnet")
         (client_url := None) (explorer_url := None).
  reflexivity.
Defined.

Lemma cached_address_from_node_client_witness :
  (forall client,
      default_thor_client (Client.network (self sample_world)) = Ok client ->
      Client.thor_client (self sample_world) = Some client)
  /\ (Client.address (self sample_world) <> "" ->
      exists client key,
        Client.thor_client (self sample_world) = Some client
        /\ privkey_to_address (Collaborators := sample_collaborators)
             client key = Ok (Client.address (self sample_world))).
Proof.
  apply (cached_address_from_node_client (E := sample_collaborators)).
  apply reachable_construct
    with (phrase := sample_phrase) (network := "testnet")
         (client_url := None) (explorer_url := None).
  reflexivity.
Defined.

(** ** Frames of the getters *)

Section Frames.
Context {E : Collaborators}.

Lemma derive_private_key_node (w : World) :
  Client.network (self (snd (derive_private_key w))) = Client.network (self w)
  /\ Client.thor_client (self (snd (derive_private_key w)))
     = Client.thor_client (self w).
Proof.
  unfold derive_private_key. monad.
  destruct (negb (truthy (Client.phrase (self w)))); cbn; [split; reflexivity|].
  destruct (Client.thor_client (self w)) as [c|] eqn:Hc; cbn.
  - destruct (seed_to_privkey c (Client.phrase (self w))); cbn;
      (split; [reflexivity | exact Hc]).
  - split; [reflexivity | exact Hc].
Qed.

Lemma get_private_key_node (w : World) :
  Client.network (self (snd (get_private_key w))) = Client.network (self w)
  /\ Client.thor_client (self (snd (get_private_key w)))
     = Client.thor_client (self w).
Proof.
  unfold get_private_key. monad.
  destruct (Client.private_key (self w)) as [key|];
    [destruct (truthy key)|]; try apply derive_private_key_node.
  split; reflexivity.
Qed.

Lemma get_address_node (w : World) :
  Client.network (self (snd (get_address w))) = Client.network (self w)
  /\ Client.thor_client (self (snd (get_address w)))
     = Client.thor_client (self w).
Proof.
  unfold get_address. monad.
  destruct (get_private_key_node w) as (Hn & Ht).
  destruct (negb (truthy (Client.address (self w)))); cbn;
    [|split; reflexivity].
  destruct (Client.thor_client (self w)) as [c|] eqn:Hc; cbn;
    [|split; [reflexivity | exact Hc]].
  destruct (get_private_key w) as [[key|e] w1]; cbn in *;
    [|split; assumption].
  destruct (privkey_to_address c key) as [a|e]; cbn;
    [destruct (negb (truthy a))|]; cbn; split; assumption.
Qed.

Lemma set_phrase_node (p : string) (w : World) :
  Client.network (self (snd (set_phrase p w))) = Client.network (self w)
  /\ Client.thor_client (self (snd (set_phrase p w)))
     = Client.thor_client (self w).
Proof.
  unfold set_phrase. monad.
  destruct (negb (truthy (Client.phrase (self w)))
            || negb (Client.phrase (self w) =? p)); cbn.
  - destruct (validate_phrase p); cbn; [|split; reflexivity].
    match goal with
    | |- context [get_address ?w0] => apply (get_address_node w0)
    end.
  - apply get_address_node.
Qed.

Lemma get_private_key_returns_stored (w : World) k w' :
  get_private_key w = (Ok k, w') -> Client.private_key (self w') = Some k.
Proof.
  unfold get_private_key, derive_private_key. monad.
  destruct (Client.private_key (self w)) as [key|] eqn:Hkey;
    [destruct (truthy key)|].
  - intros [= <- <-]. exact Hkey.
  - destruct (negb (truthy (Client.phrase (self w)))); cbn; [discriminate|].
    destruct (Client.thor_client (self w)) as [c|]; cbn; [|discriminate].
    destruct (seed_to_privkey c (Client.phrase (self w))); cbn;
      [|discriminate].
    intros [= <- <-]. reflexivity.
  - destruct (negb (truthy (Client.phrase (self w)))); cbn; [discriminate|].
    destruct (Client.thor_client (self w)) as [c|]; cbn; [|discriminate].
    destruct (seed_to_privkey c (Client.phrase (self w))); cbn;
      [|discriminate].
    intros [= <- <-]. reflexivity.
Qed.

(** ** The constructor *)

(** X1: a client can be constructed only on 'testnet' or 'mainnet'.  For
    any other network the constructor raises [KeyError]; when it succeeds,
    the client stores the network and holds the node client built for it,
    whose server is the default node URL of the network whatever
    [client_url] was passed. *)
Theorem construct_network (phrase network : string)
  (client_url explorer_url : option string) :
  (network <> "testnet" -> network <> "mainnet" ->
   construct phrase network client_url explorer_url
   = Raise (KeyError network))
  /\ (forall w,
        construct phrase network client_url explorer_url = Ok w ->
        (network = "testnet" \/ network = "mainnet")
        /\ Client.network (self w) = network
        /\ Client.thor_client (self w) =
             Some (CosmosSDKClient.make
                     (if network =? "testnet"
                      then "https://testnet.thornode.thorchain.info"
                      else "http://138.68.125.107:1317")
                     (if network =? "testnet" then "tthor" else "thor")
                     "m/44'/931'/0'/0/0" "thorchain")).
Proof.
  rewrite construct_run. split.
  - intros Ht Hm. rewrite default_thor_client_unknown by assumption.
    reflexivity.
  - intros w.
    destruct (default_thor_client network) as [c|e] eqn:Hc; [|discriminate].
    pose proof (default_thor_client_known _ Hc) as Hknown.
    assert (Hclient : c = CosmosSDKClient.make
                            (if network =? "testnet"
                             then "https://testnet.thornode.thorchain.info"
                             else "http://138.68.125.107:1317")
                            (if network =? "testnet" then "tthor" else "thor")
                            "m/44'/931'/0'/0/0" "thorchain").
    { destruct Hknown as [-> | ->]; vm_compute in Hc;
        injection Hc as <-; reflexivity. }
    intros Hw. split; [exact Hknown|].
    destruct (truthy phrase).
    + destruct (set_phrase_node phrase
                  (blank_world network client_url explorer_url c)) as (Hn & Ht).
      destruct (set_phrase phrase (blank_world network client_url explorer_url c))
        as [[a|e] w1]; [|discriminate].
      injection Hw as <-. cbn in Hn, Ht. rewrite Hn, Ht, Hclient.
      split; reflexivity.
    + injection Hw as <-. cbn. rewrite Hclient. split; reflexivity.
Qed.

(** X2: constructing a client with a non-empty phrase that fails the
    checksum raises [Exception('invalid phrase')], so no client exists. *)
Theorem construct_invalid_phrase (phrase network : string)
  (client_url explorer_url : option string) :
  phrase <> "" ->
  validate_phrase phrase = false ->
  network = "testnet" \/ network = "mainnet" ->
  construct phrase network client_url explorer_url
  = Raise (Exception "invalid phrase").
Proof.
  intros Hp Hbad Hknown. apply truthy_str_true in Hp.
  rewrite construct_run.
  assert (Hc : exists c, default_thor_client network = Ok c)
    by (destruct Hknown as [-> | ->]; eexists; reflexivity).
  destruct Hc as (c & ->). rewrite Hp.
  unfold set_phrase. monad. cbn. rewrite Hbad. reflexivity.
Qed.

(** X3: constructing a client without a phrase calls no collaborator and
    leaves the phrase, the address and the private key unset; the
    explorer URL is the one passed when that is non-empty and the default
    of the network otherwise. *)
Theorem construct_empty_phrase (network : string)
  (client_url explorer_url : option string) :
  network = "testnet" \/ network = "mainnet" ->
  exists w,
    construct "" network client_url explorer_url = Ok w
    /\ Client.phrase (self w) = ""
    /\ Client.address (self w) = ""
    /\ Client.private_key (self w) = None
    /\ calls w = []
    /\ Client.explorer_url (self w) =
         Some (match explorer_url with
               | Some url =>
                   if url =? "" then
                     if network =? "testnet"
                     then "https://testnet.thorchain.net"
                     else "https://thorchain.net"
                   else url
               | None =>
                   if network =? "testnet"
                   then "https://testnet.thorchain.net"
                   else "https://thorchain.net"
               end).
Proof.
  intros Hknown. rewrite construct_run.
  assert (Hc : exists c, default_thor_client network = Ok c)
    by (destruct Hknown as [-> | ->]; eexists; reflexivity).
  destruct Hc as (c & ->). cbn.
  eexists. split; [reflexivity|]. cbn. repeat split.
  destruct explorer_url as [url|]; cbn; [|reflexivity].
  unfold truthy, Truthy_str. destruct (url =? ""); reflexivity.
Qed.

End Frames.

Lemma construct_invalid_phrase_witness :
  construct (E := sample_collaborators) "not a mnemonic" "mainnet"
    (Some "http://localhost:1317") None
  = Raise (Exception "invalid phrase").
Proof.
  apply (construct_invalid_phrase (E := sample_collaborators)).
  - discriminate.
  - reflexivity.
  - right. reflexivity.
Defined.

Lemma construct_empty_phrase_witness :
  exists w,
    construct (E := sample_collaborators) "" "mainnet" None
      (Some "https://viewblock.io/thorchain") = Ok w
    /\ Client.phrase (self w) = ""
    /\ Client.address (self w) = ""
    /\ Client.private_key (self w) = None
    /\ calls w = []
    /\ Client.explorer_url (self w) =
         Some (match Some "https://viewblock.io/thorchain" with
               | Some url =>
                   if url =? "" then
                     if "mainnet" =? "testnet"
                     then "https://testnet.thorchain.net"
                     else "https://thorchain.net"
                   else url
               | None =>
                   if "mainnet" =? "testnet"
                   then "https://testnet.thorchain.net"
                   else "https://thorchain.net"
               end).
Proof.
  apply (construct_empty_phrase (E := sample_collaborators)).
  right. reflexivity.
Defined.

(** ** Network and client URL *)

(** X4: outside 'testnet' and 'mainnet' [set_network] fails in one of two
    ways.  For the empty network it raises
    [Exception('Network must be provided')] and changes nothing; for any
    other network it raises [KeyError] once [self.network] has been
    assigned: the network is the new one while the node client, the
    cached address and all other attributes are the old ones. *)
Theorem set_network_failures (w : World) (n : string) :
  n <> "testnet" -> n <> "mainnet" ->
  set_network n w =
    if n =? "" then (Raise (Exception "Network must be provided"), w)
    else (Raise (KeyError n),
          {| self := Client.with_network n (self w); calls := calls w |}).
Proof.
  intros Ht Hm. unfold set_network. monad.
  unfold truthy, Truthy_str. rewrite negb_involutive.
  destruct (n =? ""); [reflexivity|].
  rewrite get_new_thor_client_run. cbn.
  rewrite default_thor_client_unknown by assumption. reflexivity.
Qed.

(** X5: on 'testnet' or 'mainnet', [set_client_url] stores the URL in
    [client_url] and rebuilds the node client, whose server is still the
    default node URL of the network and not the URL given; the phrase, the
    private key and also the cached address stay as they are. *)
Theorem set_client_url_keeps_server (w : World) (url : string) :
  Client.network (self w) = "testnet" \/ Client.network (self w) = "mainnet" ->
  exists w',
    set_client_url url w = (Ok tt, w')
    /\ Client.client_url (self w') = Some (UrlStr url)
    /\ Client.thor_client (self w') =
         Some (CosmosSDKClient.make
                 (if Client.network (self w) =? "testnet"
                  then "https://testnet.thornode.thorchain.info"
                  else "http://138.68.125.107:1317")
                 (if Client.network (self w) =? "testnet"
                  then "tthor" else "thor")
                 "m/44'/931'/0'/0/0" "thorchain")
    /\ Client.network (self w') = Client.network (self w)
    /\ Client.phrase (self w') = Client.phrase (self w)
    /\ Client.private_key (self w') = Client.private_key (self w)
    /\ Client.address (self w') = Client.address (self w)
    /\ calls w' = calls w.
Proof.
  intros Hknown. unfold set_client_url. monad.
  rewrite get_new_thor_client_run. cbn.
  destruct Hknown as [Hn | Hn]; rewrite Hn; cbn; eexists;
    (split; [reflexivity|]); cbn; repeat split; exact Hn.
Qed.

(** X6: called without an argument, or with the empty string,
    [get_prefix] answers from the network of the instance: 'tthor' when
    that is 'testnet' and 'thor' otherwise; nothing is changed. *)
Theorem get_prefix_without_argument (w : World) (netowrk : option string) :
  truthy netowrk = false ->
  get_prefix netowrk w =
    (Ok (if Client.network (self w) =? "testnet" then "tthor" else "thor"), w).
Proof.
  intros Hfalse. unfold get_prefix. rewrite Hfalse. reflexivity.
Qed.

Section Caches.
Context {E : Collaborators}.

(** ** The caches *)

(** X7: a private key that [get_private_key] has returned is cached: when
    it is not empty, the next [get_private_key] returns it again, calls no
    collaborator and changes nothing. *)
Theorem get_private_key_cached (w w' : World) (k : bytes) :
  get_private_key w = (Ok k, w') ->
  k <> [] ->
  get_private_key w' = (Ok k, w').
Proof.
  intros Hget Hk. apply get_private_key_returns_stored in Hget.
  unfold get_private_key. monad. rewrite Hget.
  destruct k; [contradiction | reflexivity].
Qed.

(** X8: an address that [get_address] has returned is cached: the next
    [get_address] returns it again, calls no collaborator and changes
    nothing. *)
Theorem get_address_twice (w w' : World) (a : string) :
  get_address w = (Ok a, w') ->
  get_address w' = (Ok a, w').
Proof.
  intros Hget. destruct (get_address_returns_stored _ Hget) as (Hstored & Ha).
  rewrite <- Hstored at 1. apply get_address_cached.
  rewrite Hstored. exact Ha.
Qed.

(** X9: when the node client derives the empty address, [get_address]
    raises the "Address has to be set" exception; the key stays cached
    and the address cache stays empty. *)
Theorem get_address_empty_raises (w w1 : World) (c : CosmosSDKClient.t)
  (k : bytes) :
  Client.address (self w) = "" ->
  Client.thor_client (self w) = Some c ->
  get_private_key w = (Ok k, w1) ->
  privkey_to_address c k = Ok "" ->
  exists w',
    get_address w =
      (Raise (Exception "Address has to be set. Or set a phrase by calling `setPhrase` before to use an address of an imported key."),
       w')
    /\ Client.address (self w') = ""
    /\ Client.private_key (self w') = Some k
    /\ calls w' = calls w1 ++ [Call_privkey_to_address c k].
Proof.
  intros Ha Hc Hk Haddr.
  pose proof (get_private_key_returns_stored _ Hk) as Hstored.
  unfold get_address. monad. rewrite Ha. cbn. rewrite Hc. cbn.
  rewrite Hk. cbn. rewrite Haddr. cbn.
  eexists. split; [reflexivity|]. cbn. repeat split. exact Hstored.
Qed.

(** X10: when the key derivation raises, [set_phrase] with a new valid
    phrase raises the same exception, and by then the new phrase is stored
    and the former private key and address are gone. *)
Theorem set_phrase_derivation_fails (w : World) (p : string)
  (c : CosmosSDKClient.t) (e : exn) :
  Client.phrase (self w) = "" \/ Client.phrase (self w) <> p ->
  p <> "" ->
  validate_phrase p = true ->
  Client.thor_client (self w) = Some c ->
  seed_to_privkey c p = Raise e ->
  exists w',
    set_phrase p w = (Raise e, w')
    /\ Client.phrase (self w') = p
    /\ Client.private_key (self w') = None
    /\ Client.address (self w') = ""
    /\ calls w' = calls w ++ [Call_validate_phrase p;
                              Call_seed_to_privkey c p].
Proof.
  intros Hnew Hp Hvalid Hclient Hkey.
  assert (Hguard : negb (truthy (Client.phrase (self w)))
                   || negb (Client.phrase (self w) =? p) = true).
  { destruct Hnew as [Hunset | Hdiff].
    - rewrite Hunset. reflexivity.
    - apply String.eqb_neq in Hdiff. rewrite Hdiff. apply orb_true_r. }
  apply truthy_str_true in Hp.
  eexists. split.
  - run. rewrite Hguard. cbn. rewrite Hvalid. cbn. rewrite Hclient. cbn.
    rewrite Hp. cbn. rewrite Hclient. cbn. rewrite Hkey. cbn.
    rewrite <- app_assoc. reflexivity.
  - cbn. repeat split.
Qed.

(** ** Balances and transfers *)

(** X11: with an address given, [get_balance] needs no phrase and leaves
    the client as it is: it asks the node once, for that address, and
    returns the filtered response or raises what the node call raised. *)
Theorem get_balance_of_address (w : World) (addr : string)
  (asset : option string) (c : CosmosSDKClient.t) :
  addr <> "" ->
  Client.thor_client (self w) = Some c ->
  get_balance (Some addr) asset w =
    (match thor_get_balance c addr with
     | Ok response => Ok (collect_balances asset (result response))
     | Raise e => Raise e
     end,
     {| self := self w; calls := calls w ++ [Call_get_balance c addr] |}).
Proof.
  intros Haddr Hc.
  apply (get_balance_run asset
           (or_introl (conj eq_refl (conj Haddr eq_refl))) Hc).
Qed.

(** X12: without an asset, or with the empty string for one,
    [get_balance] returns every entry of the response, in response
    order. *)
Theorem get_balance_all_assets (w : World) (addr : string)
  (asset : option string) (c : CosmosSDKClient.t) (response : Response) :
  truthy asset = false ->
  addr <> "" ->
  Client.thor_client (self w) = Some c ->
  thor_get_balance c addr = Ok response ->
  fst (get_balance (Some addr) asset w) = Ok (all_balances (result response))
  /\ length (all_balances (result response)) = length (result response).
Proof.
  intros Hasset Haddr Hc Hnode. split.
  - rewrite (get_balance_run asset
               (or_introl (conj eq_refl (conj Haddr eq_refl))) Hc).
    rewrite Hnode. cbn. rewrite collect_balances_all by assumption.
    reflexivity.
  - unfold all_balances. apply length_map.
Qed.

(** X15: on a client without a phrase, [transfer] raises
    [Exception('Phrase not set')]; nothing is sent and nothing is
    changed. *)
Theorem transfer_phrase_not_set (w : World) (t : Transfer) :
  reachable w ->
  Client.phrase (self w) = "" ->
  transfer t w = (Raise (Exception "Phrase not set"), w).
Proof.
  intros Hw Hp.
  destruct (reachable_coherent Hw) as ((c & Hc & _) & Hcaches & _).
  destruct (Hcaches Hp) as (_ & Hk).
  unfold transfer. monad. rewrite Hc.
  rewrite get_private_key_phrase_not_set by assumption. reflexivity.
Qed.

End Caches.

Lemma set_network_failures_witness :
  set_network "stagenet" sample_world =
    if "stagenet" =? "" then
      (Raise (Exception "Network must be provided"), sample_world)
    else (Raise (KeyError "stagenet"),
          {| self := Client.with_network "stagenet" (self sample_world);
             calls := calls sample_world |}).
Proof.
  apply (set_network_failures sample_world (n := "stagenet")); discriminate.
Defined.

Lemma set_client_url_keeps_server_witness :
  exists w',
    set_client_url "http://localhost:1317" sample_world = (Ok tt, w')
    /\ Client.client_url (self w') = Some (UrlStr "http://localhost:1317")
    /\ Client.thor_client (self w') =
         Some (CosmosSDKClient.make
                 (if Client.network (self sample_world) =? "testnet"
                  then "https://testnet.thornode.thorchain.info"
                  else "http://138.68.125.107:1317")
                 (if Client.network (self sample_world) =? "testnet"
                  then "tthor" else "thor")
                 "m/44'/931'/0'/0/0" "thorchain")
    /\ Client.network (self w') = Client.network (self sample_world)
    /\ Client.phrase (self w') = Client.phrase (self sample_world)
    /\ Client.private_key (self w') = Client.private_key (self sample_world)
    /\ Client.address (self w') = Client.address (self sample_world)
    /\ calls w' = calls sample_world.
Proof.
  apply (set_client_url_keeps_server sample_world "http://localhost:1317").
  left. reflexivity.
Defined.

Lemma get_prefix_without_argument_witness :
  get_prefix (Some "") sample_mainnet_world =
    (Ok (if Client.network (self sample_mainnet_world) =? "testnet"
         then "tthor" else "thor"),
     sample_mainnet_world).
Proof.
  apply (get_prefix_without_argument sample_mainnet_world (Some "")).
  reflexivity.
Defined.

Lemma get_private_key_cached_witness :
  get_private_key (E := sample_collaborators)
    (snd (get_private_key (E := sample_collaborators)
            {| self := Client.with_private_key None (self sample_world);
               calls := [] |}))
  = (Ok (list_byte_of_string "abandon"),
     snd (get_private_key (E := sample_collaborators)
            {| self := Client.with_private_key None (self sample_world);
               calls := [] |})).
Proof.
  apply (get_private_key_cached (E := sample_collaborators)
           {| self := Client.with_private_key None (self sample_world);
              calls := [] |}).
  - reflexivity.
  - discriminate.
Defined.

Lemma get_address_twice_witness :
  get_address (E := sample_collaborators)
    (snd (get_address (E := sample_collaborators) sample_mainnet_world))
  = (Ok "thor1qsample",
     snd (get_address (E := sample_collaborators) sample_mainnet_world)).
Proof.
  apply (get_address_twice (E := sample_collaborators) sample_mainnet_world).
  reflexivity.
Defined.

Lemma get_address_empty_raises_witness :
  exists w',
    get_address (E := silent_collaborators) sample_mainnet_world =
      (Raise (Exception "Address has to be set. Or set a phrase by calling `setPhrase` before to use an address of an imported key."),
       w')
    /\ Client.address (self w') = ""
    /\ Client.private_key (self w') = Some (list_byte_of_string "abandon")
    /\ calls w' =
         calls sample_mainnet_world
           ++ [Call_privkey_to_address
                 (CosmosSDKClient.make "http://138.68.125.107:1317" "thor"
                    "m/44'/931'/0'/0/0" "thorchain")
                 (list_byte_of_string "abandon")].
Proof.
  apply (get_address_empty_raises (E := silent_collaborators)
           sample_mainnet_world); reflexivity.
Defined.

Lemma set_phrase_derivation_fails_witness :
  exists w',
    set_phrase (E := refusing_collaborators) "another phrase" sample_world
      = (Raise (Exception "no key"), w')
    /\ Client.phrase (self w') = "another phrase"
    /\ Client.private_key (self w') = None
    /\ Client.address (self w') = ""
    /\ calls w' =
         calls sample_world
           ++ [Call_validate_phrase "another phrase";
               Call_seed_to_privkey
                 (CosmosSDKClient.make
                    "https://testnet.thornode.thorchain.info" "tthor"
                    "m/44'/931'/0'/0/0" "thorchain")
                 "another phrase"].
Proof.
  apply (set_phrase_derivation_fails (E := refusing_collaborators)).
  - right. vm_compute. discriminate.
  - discriminate.
  - reflexivity.
  - reflexivity.
  - reflexivity.
Defined.

Lemma get_balance_of_address_witness :
  get_balance (E := sample_collaborators) (Some "tthor1qother") (Some "bnb")
    sample_empty_world =
    (match thor_get_balance (Collaborators := sample_collaborators)
             (CosmosSDKClient.make
                "https://testnet.thornode.thorchain.info" "tthor"
                "m/44'/931'/0'/0/0" "thorchain")
             "tthor1qother" with
     | Ok response => Ok (collect_balances (Some "bnb") (result response))
     | Raise e => Raise e
     end,
     {| self := self sample_empty_world;
        calls := calls sample_empty_world
                   ++ [Call_get_balance
                         (CosmosSDKClient.make
                            "https://testnet.thornode.thorchain.info" "tthor"
                            "m/44'/931'/0'/0/0" "thorchain")
                         "tthor1qother"] |}).
Proof.
  apply (get_balance_of_address (E := sample_collaborators)).
  - discriminate.
  - reflexivity.
Defined.

Lemma get_balance_all_assets_witness :
  fst (get_balance (E := sample_collaborators) (Some "tthor1qother") (Some "")
         sample_empty_world)
  = Ok (all_balances (result {| height := "0"; result := sample_holdings |}))
  /\ length (all_balances
               (result {| height := "0"; result := sample_holdings |}))
     = length (result {| height := "0"; result := sample_holdings |}).
Proof.
  apply (get_balance_all_assets (E := sample_collaborators)
           sample_empty_world (Some "") (addr := "tthor1qother")
           (c := CosmosSDKClient.make
                   "https://testnet.thornode.thorchain.info" "tthor"
                   "m/44'/931'/0'/0/0" "thorchain")).
  - reflexivity.
  - discriminate.
  - reflexivity.
  - reflexivity.
Defined.

Lemma transfer_phrase_not_set_witness :
  transfer (E := sample_collaborators)
    {| transfer_amount := 100; transfer_recipient := "tthor1qother";
       transfer_asset := "rune"; transfer_memo := "memo" |}
    sample_empty_world
  = (Raise (Exception "Phrase not set"), sample_empty_world).
Proof.
  apply (transfer_phrase_not_set (E := sample_collaborators)).
  - apply reachable_construct
      with (phrase := "") (network := "testnet")
           (client_url := None) (explorer_url := None).
    reflexivity.
  - reflexivity.
Defined.

(** ** Transactions *)

Section Transactions.
Context {Tx : Type} {Truthy_Tx : Truthy Tx}.
Variable txs_hash_get : CosmosSDKClient.t -> string -> res Tx.

(** X16: [get_transaction_data] changes nothing.  It returns a
    transaction exactly when the node client has answered with that
    transaction and the answer is truthy; a falsy answer surfaces as
    [Exception(Exception('transaction not found'))], and an exception
    [e] of the node client as [Exception(e)]. *)
Theorem get_transaction_data_outcomes (tx_id : string) (w : World) :
  snd (get_transaction_data txs_hash_get tx_id w) = w
  /\ (forall tx,
        fst (get_transaction_data txs_hash_get tx_id w) = inr tx
        <-> exists c,
              Client.thor_client (self w) = Some c
              /\ txs_hash_get c tx_id = Ok tx
              /\ truthy tx = true)
  /\ (forall c tx,
        Client.thor_client (self w) = Some c ->
        txs_hash_get c tx_id = Ok tx ->
        truthy tx = false ->
        fst (get_transaction_data txs_hash_get tx_id w)
        = inl (Exception_of (Exception "transaction not found")))
  /\ (forall c e,
        Client.thor_client (self w) = Some c ->
        txs_hash_get c tx_id = Raise e ->
        fst (get_transaction_data txs_hash_get tx_id w)
        = inl (Exception_of e)).
Proof.
  unfold get_transaction_data, find_transaction. monad.
  destruct (Client.thor_client (self w)) as [c|]; cbn.
  - destruct (txs_hash_get c tx_id) as [tx|e] eqn:Hnode; cbn.
    + destruct (truthy tx) eqn:Htruthy; cbn.
      * split; [reflexivity|]. split; [|split].
        -- intros tx'. split.
           ++ intros [= <-]. exists c. repeat split; assumption.
           ++ intros (c' & [= <-] & Hnode' & _). congruence.
        -- intros c' tx' [= <-] Hnode' Hfalse. congruence.
        -- intros c' e [= <-] Hnode'. congruence.
      * split; [reflexivity|]. split; [|split].
        -- intros tx'. split; [discriminate|].
           intros (c' & [= <-] & Hnode' & Htrue). congruence.
        -- reflexivity.
        -- intros c' e [= <-] Hnode'. congruence.
    + split; [reflexivity|]. split; [|split].
      * intros tx'. split; [discriminate|].
        intros (c' & [= <-] & Hnode' & _). congruence.
      * intros c' tx' [= <-] Hnode'. congruence.
      * intros c' e' [= <-] Hnode'. congruence.
  - split; [reflexivity|]. split; [|split].
    + intros tx'. split; [discriminate|].
      intros (c' & Hnone & _). discriminate.
    + discriminate.
    + discriminate.
Qed.

End Transactions.

(** ** The seed decides the key *)

Lemma bind_same_outcome {W A B} (c1 c2 : ST W A) (k : A -> ST W B) w1 w2 :
  fst (c1 w1) = fst (c2 w2) ->
  (forall a, BinanceCrypto.state_independent (k a)) ->
  fst (bind c1 k w1) = fst (bind c2 k w2).
Proof.
  intros Hc Hk. unfold bind.
  destruct (c1 w1) as [r1 s1], (c2 w2) as [r2 s2]. cbn in Hc. subst r2.
  destruct r1 as [a|e]; [apply Hk | reflexivity].
Qed.

Lemma bind_raises {W A B} (c : ST W A) (k : A -> ST W B) w e :
  fst (c w) = Raise e -> fst (bind c k w) = Raise e.
Proof.
  intros Hc. unfold bind. destruct (c w) as [r s]. cbn in Hc. subst r.
  reflexivity.
Qed.

(** X17: with libraries that answer by their arguments alone, the private
    key depends on the mnemonic and the passphrase through the seed only:
    two calls whose seeds agree end with the same outcome, and a failure
    of the seed derivation is the failure of the key derivation. *)
Theorem mnemonicToPrivateKey_by_seed {W : Type}
  {L : BinanceCrypto.Libraries W}
  (m1 p1 m2 p2 : string) (w1 w2 w1' w2' : W) :
  BinanceCrypto.deterministic_libraries ->
  fst (BinanceCrypto.mnemonicToSeed m1 p1 w1)
  = fst (BinanceCrypto.mnemonicToSeed m2 p2 w2) ->
  fst (BinanceCrypto.mnemonicToPrivateKey m1 p1 w1')
  = fst (BinanceCrypto.mnemonicToPrivateKey m2 p2 w2')
  /\ forall e,
       fst (BinanceCrypto.mnemonicToSeed m1 p1 w1) = Raise e ->
       fst (BinanceCrypto.mnemonicToPrivateKey m1 p1 w1') = Raise e.
Proof.
  intros Hlib Hseed.
  pose proof (mnemonicToSeed_state_independent m1 p1 Hlib w1 w1') as H1.
  pose proof (mnemonicToSeed_state_independent m2 p2 Hlib w2 w2') as H2.
  unfold BinanceCrypto.mnemonicToPrivateKey. split.
  - apply bind_same_outcome; [congruence|]. intros seed.
    apply state_independent_bind; [apply Hlib|]. intros wallet.
    apply state_independent_bind; [apply Hlib|]. intros child.
    apply state_independent_bind.
    + apply state_independent_bind; [apply Hlib|]. intros hex. apply Hlib.
    + intros privateKey. apply state_independent_ret.
  - intros e He. apply bind_raises. congruence.
Qed.

Lemma mnemonicToPrivateKey_by_seed_witness :
  fst (BinanceCrypto.mnemonicToPrivateKey
         (L := BinanceCrypto.sample_libraries) "ab" "c" 0)
  = fst (BinanceCrypto.mnemonicToPrivateKey
           (L := BinanceCrypto.sample_libraries) "a" "bc" 9)
  /\ forall e,
       fst (BinanceCrypto.mnemonicToSeed
              (L := BinanceCrypto.sample_libraries) "ab" "c" 3) = Raise e ->
       fst (BinanceCrypto.mnemonicToPrivateKey
              (L := BinanceCrypto.sample_libraries) "ab" "c" 0) = Raise e.
Proof.
  apply (mnemonicToPrivateKey_by_seed
           (L := BinanceCrypto.sample_libraries) "ab" "c" "a" "bc" 3 4 0 9).
  - constructor; intros; intros w1 w2; reflexivity.
  - reflexivity.
Defined.


(** ** Switching networks *)

(** X19: after a switch to 'testnet' or 'mainnet', [get_address] derives
    the address anew from the private key that was cached before the
    switch, with the node client of the new network: the key is not
    derived again, and one call, the address derivation, is made. *)
Theorem get_address_after_set_network {E : Collaborators} (w : World)
  (n : string) (k : bytes) (a : string) :
  n = "testnet" \/ n = "mainnet" ->
  Client.private_key (self w) = Some k ->
  k <> [] ->
  privkey_to_address
    (CosmosSDKClient.make
       (if n =? "testnet"
        then "https://testnet.thornode.thorchain.info"
        else "http://138.68.125.107:1317")
       (if n =? "testnet" then "tthor" else "thor")
       "m/44'/931'/0'/0/0" "thorchain") k = Ok a ->
  a <> "" ->
  exists w1 w2,
    set_network n w = (Ok tt, w1)
    /\ get_address w1 = (Ok a, w2)
    /\ Client.address (self w2) = a
    /\ Client.private_key (self w2) = Some k
    /\ calls w2 =
         calls w
           ++ [Call_privkey_to_address
                 (CosmosSDKClient.make
                    (if n =? "testnet"
                     then "https://testnet.thornode.thorchain.info"
                     else "http://138.68.125.107:1317")
                    (if n =? "testnet" then "tthor" else "thor")
                    "m/44'/931'/0'/0/0" "thorchain") k].
Proof.
  intros Hknown Hkey Hk Haddr Ha.
  apply truthy_str_true in Ha.
  assert (Hk' : truthy k = true) by (destruct k; [contradiction | reflexivity]).
  destruct Hknown as [-> | ->]; cbn in Haddr;
    eexists; eexists; (split; [reflexivity|]); split.
  - unfold get_address, get_private_key. monad. cbn.
    rewrite Hkey, Hk'. cbn. rewrite Haddr. cbn. rewrite Ha. reflexivity.
  - cbn. split; [reflexivity|]. split; [exact Hkey | reflexivity].
  - unfold get_address, get_private_key. monad. cbn.
    rewrite Hkey, Hk'. cbn. rewrite Haddr. cbn. rewrite Ha. reflexivity.
  - cbn. split; [reflexivity|]. split; [exact Hkey | reflexivity].
Qed.

Lemma get_address_after_set_network_witness :
  exists w1 w2,
    set_network "mainnet" sample_world = (Ok tt, w1)
    /\ get_address (E := sample_collaborators) w1 = (Ok "thor1qsample", w2)
    /\ Client.address (self w2) = "thor1qsample"
    /\ Client.private_key (self w2) = Some (list_byte_of_string "abandon")
    /\ calls w2 =
         calls sample_world
           ++ [Call_privkey_to_address
                 (CosmosSDKClient.make
                    (if "mainnet" =? "testnet"
                     then "https://testnet.thornode.thorchain.info"
                     else "http://138.68.125.107:1317")
                    (if "mainnet" =? "testnet" then "tthor" else "thor")
                    "m/44'/931'/0'/0/0" "thorchain")
                 (list_byte_of_string "abandon")].
Proof.
  apply (get_address_after_set_network (E := sample_collaborators)
           sample_world (n := "mainnet")).
  - right. reflexivity.
  - reflexivity.
  - discriminate.
  - reflexivity.
  - discriminate.
Defined.

(** ** Where the private key comes from *)

Section KeyProvenance.
Context {E : Collaborators}.

(** What [derive_private_key] does on a client that has a phrase and holds
    the node client [c]. *)
Lemma derive_private_key_run (w : World) (c : CosmosSDKClient.t) :
  Client.phrase (self w) <> "" ->
  Client.thor_client (self w) = Some c ->
  derive_private_key w =
    match seed_to_privkey c (Client.phrase (self w)) with
    | Ok key =>
        (Ok key,
         {| self := Client.with_private_key (Some key) (self w);
            calls := calls w
                       ++ [Call_seed_to_privkey c (Client.phrase (self w))] |})
    | Raise e =>
        (Raise e,
         {| self := self w;
            calls := calls w
                       ++ [Call_seed_to_privkey c (Client.phrase (self w))] |})
    end.
Proof.
  intros Hp Hc. apply truthy_str_true in Hp.
  unfold derive_private_key. monad. rewrite Hp. cbn. rewrite Hc. cbn.
  destruct (seed_to_privkey c (Client.phrase (self w))); reflexivity.
Qed.

Lemma derive_private_key_provenance (w : World) r w' :
  coherent w ->
  key_derived_at thor_path (self w) ->
  derive_private_key w = (r, w') ->
  key_derived_at thor_path (self w')
  /\ forall key, r = Ok key ->
       exists client,
         CosmosSDKClient.derive_path client = thor_path
         /\ seed_to_privkey client (Client.phrase (self w)) = Ok key.
Proof.
  intros ((c & Hc & Hpath) & _) Hkey.
  destruct (String.eqb_spec (Client.phrase (self w)) "") as [Hno | Hp].
  - unfold derive_private_key. monad. rewrite Hno. cbn.
    intros [= <- <-]. split; [exact Hkey | discriminate].
  - rewrite (derive_private_key_run w Hp Hc).
    destruct (seed_to_privkey c (Client.phrase (self w))) as [k|e] eqn:Hseed;
      intros [= <- <-]; cbn.
    + split.
      * intros key [= <-]. exists c. split; assumption.
      * intros key [= <-]. exists c. split; assumption.
    + split; [exact Hkey | discriminate].
Qed.

Lemma get_private_key_provenance (w : World) r w' :
  coherent w ->
  key_derived_at thor_path (self w) ->
  get_private_key w = (r, w') ->
  key_derived_at thor_path (self w')
  /\ forall key, r = Ok key ->
       exists client,
         CosmosSDKClient.derive_path client = thor_path
         /\ seed_to_privkey client (Client.phrase (self w)) = Ok key.
Proof.
  intros Hw Hkey. unfold get_private_key. monad.
  destruct (Client.private_key (self w)) as [cached|] eqn:Hcached;
    [destruct (truthy cached)|];
    try (apply derive_private_key_provenance; assumption).
  intros [= <- <-]. split; [exact Hkey|].
  intros key [= <-]. apply Hkey. exact Hcached.
Qed.

Lemma get_address_provenance (w : World) r w' :
  coherent w ->
  key_derived_at thor_path (self w) ->
  get_address w = (r, w') ->
  key_derived_at thor_path (self w').
Proof.
  intros Hw Hkey. unfold get_address. monad.
  destruct (truthy (Client.address (self w))); cbn.
  - intros [= <- <-]. exact Hkey.
  - destruct (Client.thor_client (self w)) as [c|]; cbn;
      [|intros [= <- <-]; exact Hkey].
    destruct (get_private_key w) as [[key|e] w1] eqn:Hk;
      destruct (get_private_key_provenance Hw Hkey Hk) as (Hkey1 & _);
      [|intros [= <- <-]; exact Hkey1].
    cbn. destruct (privkey_to_address c key) as [a|e]; cbn;
      [destruct (truthy a); cbn|]; intros [= <- <-]; exact Hkey1.
Qed.

(** The invariant [coherent] together with the provenance of the key. *)
Lemma get_private_key_derived (w : World) r w' :
  coherent w /\ key_derived_at thor_path (self w) ->
  get_private_key w = (r, w') ->
  coherent w' /\ key_derived_at thor_path (self w').
Proof.
  intros (Hw & Hkey) Hk. split.
  - apply (get_private_key_coherent Hw Hk).
  - apply (get_private_key_provenance Hw Hkey Hk).
Qed.

Lemma get_address_derived (w : World) r w' :
  coherent w /\ key_derived_at thor_path (self w) ->
  get_address w = (r, w') ->
  coherent w' /\ key_derived_at thor_path (self w').
Proof.
  intros (Hw & Hkey) Ha. split.
  - apply (get_address_coherent Hw Ha).
  - apply (get_address_provenance Hw Hkey Ha).
Qed.

Lemma set_phrase_derived (p : string) (w : World) :
  coherent w /\ key_derived_at thor_path (self w) ->
  coherent (snd (set_phrase p w))
  /\ key_derived_at thor_path (self (snd (set_phrase p w))).
Proof.
  intros (Hw & Hkey).
  split; [apply set_phrase_coherent; exact Hw|].
  destruct w as [c l]. unfold set_phrase. monad.
  destruct (negb (truthy (Client.phrase c)) || negb (Client.phrase c =? p)).
  - cbn. destruct (validate_phrase p); cbn; [|exact Hkey].
    match goal with
    | |- context [get_address ?w0] =>
        assert (H0 : coherent w0 /\ key_derived_at thor_path (self w0));
        [| destruct (get_address w0) as [r w'] eqn:Ha;
           apply (get_address_derived H0 Ha)]
    end.
    split.
    + apply coherent_self with (c := c); [|reflexivity|].
      * apply coherent_log; [assumption | exact I].
      * intros _. split; reflexivity.
    + intros key Hsome. discriminate.
  - cbn. destruct (get_address {| self := c; calls := l |}) as [r w'] eqn:Ha.
    apply (get_address_provenance Hw Hkey Ha).
Qed.

Lemma exec_derived (op : Op) (w : World) :
  coherent w /\ key_derived_at thor_path (self w) ->
  coherent (exec op w) /\ key_derived_at thor_path (self (exec op w)).
Proof.
  intros Hboth. pose proof Hboth as (Hw & Hkey).
  split; [apply exec_coherent; exact Hw|].
  destruct op; cbn [exec].
  - unfold purge_client. monad. cbn. intros key Hsome. discriminate.
  - unfold set_network. monad.
    destruct (negb (truthy network)); [exact Hkey|].
    rewrite get_new_thor_client_run. cbn.
    destruct (default_thor_client network); exact Hkey.
  - apply set_phrase_derived. exact Hboth.
  - unfold set_client_url. monad.
    rewrite get_new_thor_client_run. cbn.
    destruct (default_thor_client (Client.network (self w))); exact Hkey.
  - unfold get_prefix. monad. repeat branch; exact Hkey.
  - rewrite get_new_thor_client_run. exact Hkey.
  - destruct (get_private_key w) as [r w'] eqn:Hk.
    apply (get_private_key_provenance Hw Hkey Hk).
  - destruct (get_address w) as [r w'] eqn:Ha.
    apply (get_address_provenance Hw Hkey Ha).
  - assert (Hgoal : coherent (snd (get_balance address asset w))
                    /\ key_derived_at thor_path
                         (self (snd (get_balance address asset w))));
      [|apply Hgoal].
    unfold get_balance.
    apply (bind_preserves
             (fun w0 => coherent w0 /\ key_derived_at thor_path (self w0))).
    intros r1 w1 H1.
    assert (H1' : coherent w1 /\ key_derived_at thor_path (self w1)).
    { destruct address as [a|]; [destruct (truthy a)|].
      - injection H1 as _ <-. exact Hboth.
      - apply (get_address_derived Hboth H1).
      - apply (get_address_derived Hboth H1). }
    split; [exact H1'|]. intros a _.
    apply (bind_preserves
             (fun w0 => coherent w0 /\ key_derived_at thor_path (self w0))).
    intros r2 w2 H2. apply attr_opt_world in H2. subst w2.
    split; [exact H1'|]. intros c _.
    apply (bind_preserves
             (fun w0 => coherent w0 /\ key_derived_at thor_path (self w0))).
    intros r3 w3 H3.
    assert (H3' : coherent w3 /\ key_derived_at thor_path (self w3)).
    { replace w3 with (snd (call_get_balance c a w1))
        by (rewrite H3; reflexivity).
      destruct H1' as (Hw1 & Hkey1). destruct w1. split.
      - apply coherent_log; [assumption | exact I].
      - exact Hkey1. }
    split; [exact H3'|]. intros response _. exact H3'.
  - assert (Hgoal : coherent (snd (transfer t w))
                    /\ key_derived_at thor_path (self (snd (transfer t w))));
      [|apply Hgoal].
    unfold transfer.
    apply (bind_preserves
             (fun w0 => coherent w0 /\ key_derived_at thor_path (self w0))).
    intros r1 w1 H1. apply attr_opt_world in H1. subst w1.
    split; [exact Hboth|]. intros c _.
    apply (bind_preserves
             (fun w0 => coherent w0 /\ key_derived_at thor_path (self w0))).
    intros r2 w2 H2.
    pose proof (get_private_key_derived Hboth H2) as H2'.
    split; [exact H2'|]. intros key _.
    apply (bind_preserves
             (fun w0 => coherent w0 /\ key_derived_at thor_path (self w0))).
    intros r3 w3 H3.
    pose proof (get_address_derived H2' H3) as (Hw3 & Hkey3).
    split; [split; assumption|]. intros sender _.
    destruct w3. split.
    + apply coherent_log; [assumption | exact I].
    + exact Hkey3.
Qed.

Lemma construct_derived phrase network client_url explorer_url (w : World) :
  construct phrase network client_url explorer_url = Ok w ->
  coherent w /\ key_derived_at thor_path (self w).
Proof.
  intros Hinit. pose proof (construct_coherent _ _ _ _ Hinit) as Hw.
  split; [exact Hw|]. revert Hinit. rewrite construct_run.
  destruct (default_thor_client network) as [c|e] eqn:Hc; [|discriminate].
  assert (H0 : coherent (blank_world network client_url explorer_url c)
               /\ key_derived_at thor_path
                    (self (blank_world network client_url explorer_url c))).
  { split.
    - repeat split; cbn; [|constructor].
      exists c. split; [reflexivity | apply (default_thor_client_path _ Hc)].
    - intros key Hsome. discriminate. }
  destruct (truthy phrase).
  - pose proof (set_phrase_derived phrase H0) as (_ & Hset).
    destruct (set_phrase phrase (blank_world network client_url explorer_url c))
      as [[a|e] w1]; [|discriminate].
    intros [= <-]. exact Hset.
  - intros [= <-]. apply H0.
Qed.

Lemma reachable_derived (w : World) :
  reachable w -> coherent w /\ key_derived_at thor_path (self w).
Proof.
  induction 1 as [phrase network client_url explorer_url w Hinit | op w _ IH].
  - apply (construct_derived _ _ _ _ Hinit).
  - apply exec_derived. exact IH.
Qed.

(** C3: the private key of a client is derived at the path
    m/44'/931'/0'/0/0.  At every point of a client's life the node client
    it holds is configured with that path, as is any node client
    [get_new_thor_client] builds, and every key derivation it has asked
    for went to a node client configured with it.  A cached private key
    is what [seed_to_privkey] of a node client with that path answers for
    the stored phrase; when no key is cached and a phrase is set,
    [get_private_key] asks [seed_to_privkey] of the node client held for
    the stored phrase, returns and caches its answer or raises its
    exception; and whatever key [get_private_key] returns is such an
    answer. *)
Theorem node_client_derive_path (w : World) :
  reachable w ->
  node_client_at "m/44'/931'/0'/0/0" (self w)
  /\ Forall (derives_at "m/44'/931'/0'/0/0") (calls w)
  /\ (forall c, fst (get_new_thor_client w) = Ok c ->
                CosmosSDKClient.derive_path c = "m/44'/931'/0'/0/0")
  /\ key_derived_at "m/44'/931'/0'/0/0" (self w)
  /\ (forall c,
        Client.thor_client (self w) = Some c ->
        truthy (Client.private_key (self w)) = false ->
        Client.phrase (self w) <> "" ->
        get_private_key w =
          match seed_to_privkey c (Client.phrase (self w)) with
          | Ok key =>
              (Ok key,
               {| self := Client.with_private_key (Some key) (self w);
                  calls := calls w
                             ++ [Call_seed_to_privkey c
                                   (Client.phrase (self w))] |})
          | Raise e =>
              (Raise e,
               {| self := self w;
                  calls := calls w
                             ++ [Call_seed_to_privkey c
                                   (Client.phrase (self w))] |})
          end)
  /\ (forall key w',
        get_private_key w = (Ok key, w') ->
        exists client,
          CosmosSDKClient.derive_path client = "m/44'/931'/0'/0/0"
          /\ seed_to_privkey client (Client.phrase (self w)) = Ok key).
Proof.
  intros Hreach.
  destruct (reachable_derived Hreach) as (Hw & Hkey).
  pose proof Hw as (Hnode & _ & Hcalls).
  split; [exact Hnode|]. split; [exact Hcalls|]. split; [|split; [|split]].
  - intros c. rewrite get_new_thor_client_run. apply default_thor_client_path.
  - exact Hkey.
  - intros c Hc Hempty Hp.
    rewrite <- (derive_private_key_run w Hp Hc).
    unfold get_private_key. monad.
    destruct (Client.private_key (self w)) as [cached|]; [|reflexivity].
    cbn in Hempty. rewrite Hempty. reflexivity.
  - intros key w' Hget.
    destruct (get_private_key_provenance Hw Hkey Hget) as (_ & Hreturned).
    apply Hreturned. reflexivity.
Qed.

End KeyProvenance.

Lemma node_client_derive_path_witness :
  node_client_at "m/44'/931'/0'/0/0" (self sample_mainnet_world)
  /\ Forall (derives_at "m/44'/931'/0'/0/0") (calls sample_mainnet_world)
  /\ (forall c, fst (get_new_thor_client sample_mainnet_world) = Ok c ->
                CosmosSDKClient.derive_path c = "m/44'/931'/0'/0/0")
  /\ key_derived_at (E := sample_collaborators) "m/44'/931'/0'/0/0"
       (self sample_mainnet_world)
  /\ (forall c,
        Client.thor_client (self sample_mainnet_world) = Some c ->
        truthy (Client.private_key (self sample_mainnet_world)) = false ->
        Client.phrase (self sample_mainnet_world) <> "" ->
        get_private_key (E := sample_collaborators) sample_mainnet_world =
          match seed_to_privkey (Collaborators := sample_collaborators) c
                  (Client.phrase (self sample_mainnet_world)) with
          | Ok key =>
              (Ok key,
               {| self := Client.with_private_key (Some key)
                            (self sample_mainnet_world);
                  calls := calls sample_mainnet_world
                             ++ [Call_seed_to_privkey c
                                   (Client.phrase (self sample_mainnet_world))] |})
          | Raise e =>
              (Raise e,
               {| self := self sample_mainnet_world;
                  calls := calls sample_mainnet_world
                             ++ [Call_seed_to_privkey c
                                   (Client.phrase (self sample_mainnet_world))] |})
          end)
  /\ (forall key w',
        get_private_key (E := sample_collaborators) sample_mainnet_world
        = (Ok key, w') ->
        exists client,
          CosmosSDKClient.derive_path client = "m/44'/931'/0'/0/0"
          /\ seed_to_privkey (Collaborators := sample_collaborators) client
               (Client.phrase (self sample_mainnet_world)) = Ok key).
Proof.
  apply (node_client_derive_path (E := sample_collaborators)).
  apply (reachable_exec (E := sample_collaborators) (Op_set_network "mainnet")).
  apply reachable_construct
    with (phrase := sample_phrase) (network := "testnet")
         (client_url := None) (explorer_url := None).
  reflexivity.
Defined.
